(** * Nature Remo integration for Home Assistant: the climate entity, the API
    client, the setup flow and the refresh coordinator.

    The Python sources are embedded shallowly:
    - Python [float] is IEEE binary64, which is Rocq's primitive [float];
      [float(str)] and [round(x, 1)] are written out with the exact
      (correctly rounded) arithmetic of [SpecFloat];
    - a JSON object is a [gmap string _]; a missing key is [KeyError]; the
      settings object of the API has string values;
    - a method that mutates [self] and may raise is a function
      [self -> result * self] (the mutations made before the exception stay). *)

From Stdlib Require Import ZArith Floats Ascii String List Lia.
From stdpp Require Import base option strings pretty gmap list.

Local Open Scope string_scope.
Local Open Scope Z_scope.

(** ** Exceptions and results *)

Inductive exn :=
| KeyError
| ValueError
| TypeError
| OverflowError
| RequestsConnectionError   (* requests.exceptions.ConnectionError *)
| RequestsTimeout           (* requests.exceptions.Timeout *)
| JSONDecodeError           (* requests.exceptions.JSONDecodeError *)
| CannotConnect             (* config_flow.CannotConnect *)
| InvalidAuth.              (* config_flow.InvalidAuth *)

Definition exn_eqb (a b : exn) : bool :=
  match a, b with
  | KeyError, KeyError | ValueError, ValueError | TypeError, TypeError
  | OverflowError, OverflowError
  | RequestsConnectionError, RequestsConnectionError
  | RequestsTimeout, RequestsTimeout | JSONDecodeError, JSONDecodeError
  | CannotConnect, CannotConnect | InvalidAuth, InvalidAuth => true
  | _, _ => false
  end.

(** [except cls] catches [e]: the class itself or a subclass of it
    ([requests]' [JSONDecodeError] derives from [ValueError]). *)
Definition catches (cls e : exn) : bool :=
  exn_eqb cls e ||
  match cls, e with
  | ValueError, JSONDecodeError => true
  | _, _ => false
  end.

Inductive result (A : Type) :=
| Ok (a : A)
| Raise (e : exn).
Arguments Ok {A} a.
Arguments Raise {A} e.

(** A method of an object with state [S]: the result and the state it leaves. *)
Definition M (S A : Type) : Type := S -> result A * S.

Definition ret {S A} (a : A) : M S A := fun s => (Ok a, s).
Definition raise {S A} (e : exn) : M S A := fun s => (Raise e, s).
Definition bind {S A B} (m : M S A) (k : A -> M S B) : M S B :=
  fun s => match m s with
           | (Ok a, s') => k a s'
           | (Raise e, s') => (Raise e, s')
           end.
Definition get {S} : M S S := fun s => (Ok s, s).
Definition modify {S} (f : S -> S) : M S unit := fun s => (Ok tt, f s).
(** A pure computation that may raise, run inside a method. *)
Definition lift {S A} (r : result A) : M S A := fun s => (r, s).
(** [try: m except handler] for the exceptions [handler] catches. *)
Definition try_except {S A} (m : M S A) (handler : exn -> option (M S A)) : M S A :=
  fun s => match m s with
           | (Ok a, s') => (Ok a, s')
           | (Raise e, s') =>
               match handler e with
               | Some h => h s'
               | None => (Raise e, s')
               end
           end.

Notation "'do' x <- m ; k" := (bind m (fun x => k))
  (at level 10, x name, m at level 100, k at level 200).
Notation "'run' m ; k" := (bind m (fun _ => k))
  (at level 10, m at level 100, k at level 200).

(** The pure fragment: an expression that may raise. *)
Definition rbind {A B} (r : result A) (k : A -> result B) : result B :=
  match r with
  | Ok a => k a
  | Raise e => Raise e
  end.

(** [d[k]] on a dict. *)
Definition getitem {V} (d : gmap string V) (k : string) : result V :=
  match d !! k with
  | Some v => Ok v
  | None => Raise KeyError
  end.

(** ** Python floats *)

Module PyFloat.

Definition sf_prec := FloatOps.prec.
Definition sf_emax := FloatOps.emax.

(** The binary64 nearest to [(-1)^neg * n / d] (ties to even), [0 < d]. *)
Definition of_ratio (neg : bool) (n : Z) (d : positive) : float :=
  match n with
  | Zpos p =>
      SF2Prim (SFdiv sf_prec sf_emax (S754_finite neg p 0) (S754_finite false d 0))
  | _ => if neg then PrimFloat.neg_zero else PrimFloat.zero
  end.

(** The binary64 nearest to [(-1)^neg * m * 10^e]. Beyond 10^310 the
    value rounds to infinity and below 10^-330 to zero, so the powers of
    ten that are computed stay small. *)
Definition decimal_digits (m : Z) : Z := Z.log2 m / 3 + 1.

Definition of_decimal (neg : bool) (m : Z) (e : Z) : float :=
  if m =? 0 then (if neg then PrimFloat.neg_zero else PrimFloat.zero)
  else if 310 <? e then (if neg then PrimFloat.neg_infinity else PrimFloat.infinity)
  else if e + decimal_digits m <? -330 then (if neg then PrimFloat.neg_zero else PrimFloat.zero)
  else if 0 <=? e then of_ratio neg (m * 10 ^ e) 1
  else of_ratio neg m (Z.to_pos (10 ^ (- e))).

(** *** [float(s)] for a [str]

    The text is ASCII. CPython first checks and removes the underscores,
    then strips white space, reads the sign, and accepts [inf], [infinity]
    and [nan] in any case or a decimal number with an optional exponent; the
    value is rounded correctly. *)

Definition is_space (c : ascii) : bool :=
  let n := nat_of_ascii c in
  ((9 <=? n) && (n <=? 13) || (28 <=? n) && (n <=? 32))%nat.

Definition is_digit (c : ascii) : bool :=
  let n := nat_of_ascii c in ((48 <=? n) && (n <=? 57))%nat.

Definition digit_val (c : ascii) : Z := Z.of_nat (nat_of_ascii c) - 48.

Definition lower (c : ascii) : ascii :=
  let n := nat_of_ascii c in
  if ((65 <=? n) && (n <=? 90))%nat then ascii_of_nat (n + 32) else c.

Fixpoint chars (s : string) : list ascii :=
  match s with
  | EmptyString => []
  | String c s' => c :: chars s'
  end.

(** PEP 515: an underscore is allowed only between two digits. The pass
    returns the text without underscores, or [None] when one is misplaced. *)
Fixpoint strip_underscores (prev : ascii) (s : list ascii) : option (list ascii) :=
  match s with
  | [] => if Ascii.eqb prev "_" then None else Some []
  | c :: s' =>
      if Ascii.eqb c "_" then
        if is_digit prev then strip_underscores c s' else None
      else if Ascii.eqb prev "_" && negb (is_digit c) then None
      else option_map (cons c) (strip_underscores c s')
  end.

Fixpoint drop_spaces (s : list ascii) : list ascii :=
  match s with
  | c :: s' => if is_space c then drop_spaces s' else s
  | [] => []
  end.

Definition strip (s : list ascii) : list ascii :=
  rev (drop_spaces (rev (drop_spaces s))).

(** Reads a run of digits: the number read so far, how many digits, the rest. *)
Fixpoint digits (s : list ascii) (acc : Z) (n : Z) : Z * Z * list ascii :=
  match s with
  | c :: s' => if is_digit c then digits s' (10 * acc + digit_val c) (n + 1)
               else (acc, n, s)
  | [] => (acc, n, [])
  end.

Definition sign (s : list ascii) : bool * list ascii :=
  match s with
  | c :: s' =>
      if Ascii.eqb c "-" then (true, s')
      else if Ascii.eqb c "+" then (false, s')
      else (false, s)
  | [] => (false, [])
  end.

(** The exponent part; it must reach the end of the text. *)
Definition exponent (s : list ascii) : option Z :=
  match s with
  | [] => Some 0
  | c :: s' =>
      if Ascii.eqb (lower c) "e" then
        let '(neg, s'') := sign s' in
        let '(x, n, rest) := digits s'' 0 0 in
        match rest with
        | [] => if 0 <? n then Some (if neg then - x else x) else None
        | _ => None
        end
      else None
  end.

Definition number (neg : bool) (s : list ascii) : option float :=
  let '(ip, ni, s1) := digits s 0 0 in
  let '(m, nf, s2) :=
    match s1 with
    | c :: s1' => if Ascii.eqb c "." then
                    let '(m, n, r) := digits s1' ip 0 in (m, n, r)
                  else (ip, 0, s1)
    | [] => (ip, 0, [])
    end in
  if 0 <? ni + nf then
    match exponent s2 with
    | Some x => Some (of_decimal neg m (x - nf))
    | None => None
    end
  else None.

Definition word (s : list ascii) : string :=
  fold_right (fun c acc => String (lower c) acc) EmptyString s.

Definition of_chars (s : list ascii) : option float :=
  match strip_underscores "000" s with
  | None => None
  | Some s0 =>
      let '(neg, s1) := sign (strip s0) in
      let w := word s1 in
      if String.eqb w "inf" || String.eqb w "infinity" then
        Some (if neg then PrimFloat.neg_infinity else PrimFloat.infinity)
      else if String.eqb w "nan" then Some PrimFloat.nan
      else number neg s1
  end.

(** [float(s)]: [ValueError] when [s] is not the text of a number. *)
Definition of_string (s : string) : result float :=
  match of_chars (chars s) with
  | Some x => Ok x
  | None => Raise ValueError
  end.

(** *** Comparisons, [min] and [max] *)

Definition lt (x y : float) : bool := PrimFloat.ltb x y.
Definition gt (x y : float) : bool := PrimFloat.ltb y x.
Definition le (x y : float) : bool := PrimFloat.leb x y.
Definition eq (x y : float) : bool := PrimFloat.eqb x y.

(** [min(l)] keeps the first item and replaces it by each later item that
    compares [<] to it; [max(l)] the same with [>]. *)
Definition min_from (x : float) (l : list float) : float :=
  fold_left (fun cur item => if lt item cur then item else cur) l x.
Definition max_from (x : float) (l : list float) : float :=
  fold_left (fun cur item => if gt item cur then item else cur) l x.

Definition min (l : list float) : result float :=
  match l with
  | [] => Raise ValueError
  | x :: l' => Ok (min_from x l')
  end.
Definition max (l : list float) : result float :=
  match l with
  | [] => Raise ValueError
  | x :: l' => Ok (max_from x l')
  end.

(** *** [x.is_integer()] and [int(x)] *)

Definition is_integer (x : float) : bool :=
  match Prim2SF x with
  | S754_zero _ => true
  | S754_finite _ m e => (0 <=? e) || (Z.pos m mod 2 ^ (- e) =? 0)
  | _ => false
  end.

(** [int(x)] truncates towards zero; it raises on infinities and NaN. *)
Definition to_int (x : float) : result Z :=
  match Prim2SF x with
  | S754_zero _ => Ok 0
  | S754_finite s m e =>
      let a := if 0 <=? e then Z.pos m * 2 ^ e else Z.pos m / 2 ^ (- e) in
      Ok (if s then - a else a)
  | S754_infinity _ => Raise OverflowError
  | S754_nan => Raise ValueError
  end.

(** *** [round(x, 1)] *)

(** [n / d] rounded to the nearest integer, ties to the even one. *)
Definition div_half_even (n d : Z) : Z :=
  let q := n / d in
  let r := n mod d in
  match 2 * r ?= d with
  | Lt => q
  | Gt => q + 1
  | Eq => if Z.even q then q else q + 1
  end.

(** CPython formats [x] with one correctly rounded decimal and reads the
    text back: the exact value of [x] times ten is rounded half-even to an
    integer [k], and the result is the binary64 nearest to [k / 10].
    Zeros, infinities and NaN are returned as they are. *)
Definition round1 (x : float) : float :=
  match Prim2SF x with
  | S754_finite s m e =>
      let k := if 0 <=? e then Z.pos m * 2 ^ e * 10
               else div_half_even (Z.pos m * 10) (2 ^ (- e)) in
      of_ratio s k 10
  | _ => x
  end.

End PyFloat.

(** A Python number as the properties below return it: an [int] or a [float]. *)
Inductive num :=
| NInt (z : Z)
| NFloat (x : float).

(** [a == b] on numbers: the exact values are compared. *)
Definition num_eqb (a b : num) : bool :=
  match a, b with
  | NInt x, NInt y => x =? y
  | NFloat x, NFloat y => PyFloat.eq x y
  | NInt z, NFloat x | NFloat x, NInt z =>
      PyFloat.is_integer x &&
      match PyFloat.to_int x with Ok y => y =? z | Raise _ => false end
  end.

(** Truthiness of a [str]: only the empty string is falsy. *)
Definition truthy (s : string) : bool := negb (String.eqb s "").

(** Truthiness of a [str | None] and of an [int | None]. *)
Definition str_or_none_truthy (v : option string) : bool :=
  match v with
  | Some s => truthy s
  | None => false
  end.
Definition int_or_none_truthy (v : option Z) : bool :=
  match v with
  | Some z => negb (z =? 0)
  | None => false
  end.

(** [s or None]. *)
Definition or_none (s : string) : option string :=
  if truthy s then Some s else None.

(** [list(map(f, l))] for an [f] that may raise: the first failure wins. *)
Fixpoint map_result {A B} (f : A -> result B) (l : list A) : result (list B) :=
  match l with
  | [] => Ok []
  | a :: l' => rbind (f a) (fun b => rbind (map_result f l') (fun bs => Ok (b :: bs)))
  end.

(** ** const.py *)

Definition DOMAIN : string := "nature_remo".
Definition HOST : string := "https://api.nature.global/1/".
Definition DEFAULT_SCAN_INTERVAL : Z := 60.
Definition MIN_SCAN_INTERVAL : Z := 10.
Definition DEFAULT_COOL_TEMP : Z := 28.
Definition DEFAULT_HEAT_TEMP : Z := 20.

(** ** climate.py *)

(** [homeassistant.components.climate.HVACMode]. *)
Inductive HVACMode := OFF | HEAT | COOL | HEAT_COOL | AUTO | DRY | FAN_ONLY.

(** The dict [MODE_HA_TO_REMO]; [HEAT_COOL] is not one of its keys. *)
Definition MODE_HA_TO_REMO (h : HVACMode) : option string :=
  match h with
  | AUTO => Some "auto"
  | FAN_ONLY => Some "blow"
  | COOL => Some "cool"
  | DRY => Some "dry"
  | HEAT => Some "warm"
  | OFF => Some "power-off"
  | HEAT_COOL => None
  end.

Definition MODE_REMO_TO_HA : gmap string HVACMode :=
  list_to_map
    [("auto", AUTO); ("blow", FAN_ONLY); ("cool", COOL);
     ("dry", DRY); ("warm", HEAT); ("power-off", OFF)].

(** [MODE_HA_TO_REMO[climate.HVACMode.OFF]]. *)
Definition POWER_OFF : string := "power-off".

(** [d[k]] on a dict keyed by the enum. *)
Definition getitem_mode {V} (d : HVACMode -> option V) (k : HVACMode) : result V :=
  match d k with
  | Some v => Ok v
  | None => Raise KeyError
  end.

(** The aircon settings object of the API ([mode], [temp], [button], [vol],
    [dir], ...): a JSON object whose values are strings. *)
Abbreviation settings := (gmap string string).

(** A device of the API; [newest_events] maps a sensor ([te], [hu], ...) to
    its latest event, whose [val] is a number. *)
Record Device := {
  device_id : string;
  device_name : string;
  serial_number : string;
  firmware_version : string;
  newest_events : option (gmap string (gmap string float));
}.

(** An appliance of the API. [aircon_range_modes] is
    [appliance["aircon"]["range"]["modes"]]: per remo mode, the lists
    [temp], [vol] and [dir]. *)
Record Appliance := {
  appliance_id : string;
  nickname : string;
  appliance_type : string;
  appliance_device : Device;
  aircon_range_modes : gmap string (gmap string (list string));
  appliance_settings : settings;
}.

(** The attributes of a [NatureRemoAC] ([NatureRemoBase] included). *)
Record NatureRemoAC := {
  _name : string;
  _appliance_id : string;
  _device : Device;
  _modes : gmap string (gmap string (list string));
  _hvac_mode : option HVACMode;
  _current_temperature : option float;
  _target_temperature : option float;
  _remo_mode : option string;
  _fan_mode : option string;
  _swing_mode : option string;
  _last_target_temperature : gmap string (option string);
}.

Definition set_hvac_mode (v : option HVACMode) (self : NatureRemoAC) : NatureRemoAC :=
  {| _name := _name self; _appliance_id := _appliance_id self; _device := _device self;
     _modes := _modes self; _hvac_mode := v;
     _current_temperature := _current_temperature self;
     _target_temperature := _target_temperature self;
     _remo_mode := _remo_mode self; _fan_mode := _fan_mode self;
     _swing_mode := _swing_mode self;
     _last_target_temperature := _last_target_temperature self |}.

Definition set_current_temperature (v : option float) (self : NatureRemoAC) : NatureRemoAC :=
  {| _name := _name self; _appliance_id := _appliance_id self; _device := _device self;
     _modes := _modes self; _hvac_mode := _hvac_mode self;
     _current_temperature := v;
     _target_temperature := _target_temperature self;
     _remo_mode := _remo_mode self; _fan_mode := _fan_mode self;
     _swing_mode := _swing_mode self;
     _last_target_temperature := _last_target_temperature self |}.

Definition set_target_temperature (v : option float) (self : NatureRemoAC) : NatureRemoAC :=
  {| _name := _name self; _appliance_id := _appliance_id self; _device := _device self;
     _modes := _modes self; _hvac_mode := _hvac_mode self;
     _current_temperature := _current_temperature self;
     _target_temperature := v;
     _remo_mode := _remo_mode self; _fan_mode := _fan_mode self;
     _swing_mode := _swing_mode self;
     _last_target_temperature := _last_target_temperature self |}.

Definition set_remo_mode (v : option string) (self : NatureRemoAC) : NatureRemoAC :=
  {| _name := _name self; _appliance_id := _appliance_id self; _device := _device self;
     _modes := _modes self; _hvac_mode := _hvac_mode self;
     _current_temperature := _current_temperature self;
     _target_temperature := _target_temperature self;
     _remo_mode := v; _fan_mode := _fan_mode self;
     _swing_mode := _swing_mode self;
     _last_target_temperature := _last_target_temperature self |}.

Definition set_fan_mode (v : option string) (self : NatureRemoAC) : NatureRemoAC :=
  {| _name := _name self; _appliance_id := _appliance_id self; _device := _device self;
     _modes := _modes self; _hvac_mode := _hvac_mode self;
     _current_temperature := _current_temperature self;
     _target_temperature := _target_temperature self;
     _remo_mode := _remo_mode self; _fan_mode := v;
     _swing_mode := _swing_mode self;
     _last_target_temperature := _last_target_temperature self |}.

Definition set_swing_mode (v : option string) (self : NatureRemoAC) : NatureRemoAC :=
  {| _name := _name self; _appliance_id := _appliance_id self; _device := _device self;
     _modes := _modes self; _hvac_mode := _hvac_mode self;
     _current_temperature := _current_temperature self;
     _target_temperature := _target_temperature self;
     _remo_mode := _remo_mode self; _fan_mode := _fan_mode self;
     _swing_mode := v;
     _last_target_temperature := _last_target_temperature self |}.

Definition set_last_target_temperature (v : gmap string (option string))
    (self : NatureRemoAC) : NatureRemoAC :=
  {| _name := _name self; _appliance_id := _appliance_id self; _device := _device self;
     _modes := _modes self; _hvac_mode := _hvac_mode self;
     _current_temperature := _current_temperature self;
     _target_temperature := _target_temperature self;
     _remo_mode := _remo_mode self; _fan_mode := _fan_mode self;
     _swing_mode := _swing_mode self;
     _last_target_temperature := v |}.

(** [self._default_temp]: set once in [__init__], never written again. *)
Definition _default_temp (h : HVACMode) : option Z :=
  match h with
  | COOL => Some DEFAULT_COOL_TEMP
  | HEAT => Some DEFAULT_HEAT_TEMP
  | _ => None
  end.

(** [float(device["newest_events"]["te"]["val"])]. *)
Definition device_te_val (device : Device) : result float :=
  match newest_events device with
  | None => Raise KeyError
  | Some ev => rbind (getitem ev "te") (fun te => getitem te "val")
  end.

(** The [try] statement of [_update]: the target temperature, and the
    temperature remembered for the mode ([self._remo_mode] is [mode]). *)
Definition update_target_temperature (ac_settings : settings) (mode : string)
  : M NatureRemoAC unit :=
  try_except
    (do temp <- lift (getitem ac_settings "temp");
     do x <- lift (PyFloat.of_string temp);
     run modify (set_target_temperature (Some x));
     modify (fun self =>
       set_last_target_temperature
         (<[mode := Some temp]> (_last_target_temperature self)) self))
    (fun e =>
       if catches KeyError e then Some (modify (set_target_temperature None))
       else if catches ValueError e then Some (modify (set_target_temperature None))
       else None).

(** The [if] statement of [_update] on the button. *)
Definition update_hvac_mode (button mode : string) : M NatureRemoAC unit :=
  if String.eqb button POWER_OFF then modify (set_hvac_mode (Some OFF))
  else do h <- lift (getitem MODE_REMO_TO_HA mode);
       modify (set_hvac_mode (Some h)).

(** The [with contextlib.suppress(KeyError)] statement of [_update]. *)
Definition update_current_temperature (device : Device) : M NatureRemoAC unit :=
  try_except
    (do x <- lift (device_te_val device);
     modify (set_current_temperature (Some x)))
    (fun e => if catches KeyError e then Some (ret tt) else None).

(** [NatureRemoAC._update]. *)
Definition _update (ac_settings : settings) (device : option Device)
  : M NatureRemoAC unit :=
  do mode <- lift (getitem ac_settings "mode");
  run modify (set_remo_mode (Some mode));
  run update_target_temperature ac_settings mode;
  do button <- lift (getitem ac_settings "button");
  run update_hvac_mode button mode;
  do vol <- lift (getitem ac_settings "vol");
  run modify (set_fan_mode (or_none vol));
  do dir <- lift (getitem ac_settings "dir");
  run modify (set_swing_mode (or_none dir));
  match device with
  | None => ret tt
  | Some d => update_current_temperature d
  end.

(** [NatureRemoAC.__init__] (the [config] argument is not used). *)
Definition __init__ (appliance : Appliance) : result unit * NatureRemoAC :=
  _update (appliance_settings appliance) None
    {| _name := "Nature Remo " +:+ nickname appliance;
       _appliance_id := appliance_id appliance;
       _device := appliance_device appliance;
       _modes := aircon_range_modes appliance;
       _hvac_mode := None;
       _current_temperature := None;
       _target_temperature := None;
       _remo_mode := None;
       _fan_mode := None;
       _swing_mode := None;
       _last_target_temperature := (fun _ => None) <$> MODE_REMO_TO_HA |}.

(** [NatureRemoAC._current_mode_temp_range]. [self._modes[self._remo_mode]]
    raises [KeyError] while [_remo_mode] is [None] or names no mode. *)
Definition _current_mode_temp_range (self : NatureRemoAC) : result (list float) :=
  match _remo_mode self with
  | None => Raise KeyError
  | Some mode =>
      rbind (getitem (_modes self) mode) (fun range =>
      rbind (getitem range "temp") (fun temp_range =>
      map_result PyFloat.of_string (List.filter truthy temp_range)))
  end.

(** [NatureRemoAC.min_temp]. *)
Definition min_temp (self : NatureRemoAC) : result num :=
  rbind (_current_mode_temp_range self) (fun temp_range =>
  if (length temp_range =? 0)%nat then Ok (NInt 0)
  else rbind (PyFloat.min temp_range) (fun x => Ok (NFloat x))).

(** [NatureRemoAC.max_temp]. *)
Definition max_temp (self : NatureRemoAC) : result num :=
  rbind (_current_mode_temp_range self) (fun temp_range =>
  if (length temp_range =? 0)%nat then Ok (NInt 0)
  else rbind (PyFloat.max temp_range) (fun x => Ok (NFloat x))).

(** [NatureRemoAC.target_temperature_step]. [step in [1.0, 0.5]] compares
    with [==]. *)
Definition target_temperature_step (self : NatureRemoAC) : result num :=
  rbind (_current_mode_temp_range self) (fun temp_range =>
  match temp_range with
  | t0 :: t1 :: _ =>
      let step := PyFloat.round1 (t1 - t0)%float in
      if PyFloat.eq step 1%float || PyFloat.eq step 0.5%float
      then Ok (NFloat step)
      else Ok (NInt 1)
  | _ => Ok (NInt 1)
  end).

Definition hvac_mode (self : NatureRemoAC) : option HVACMode := _hvac_mode self.
Definition target_temperature (self : NatureRemoAC) : option float :=
  _target_temperature self.
Definition current_temperature (self : NatureRemoAC) : option float :=
  _current_temperature self.
Definition fan_mode (self : NatureRemoAC) : option string := _fan_mode self.
Definition swing_mode (self : NatureRemoAC) : option string := _swing_mode self.

(** [NatureRemoAC.fan_modes] and [swing_modes]. *)
Definition mode_list (key : string) (self : NatureRemoAC) : result (list string) :=
  match _remo_mode self with
  | None => Raise KeyError
  | Some mode => rbind (getitem (_modes self) mode) (fun range => getitem range key)
  end.
Definition fan_modes := mode_list "vol".
Definition swing_modes := mode_list "dir".

(** ** nature_remo_api.py *)

(** A value of a form body: a string, an int, or the text [repr(x)] of a
    float that is not integral (its digits are not computed here). *)
Inductive form_value :=
| VStr (s : string)
| VInt (z : Z)
| VRepr (x : float).

Abbreviation payload := (gmap string form_value).

Inductive http_method := GET | POST.

Record request := {
  method : http_method;
  url : string;
  authorization : string;
  data : payload;
}.

(** A decoded JSON body: an object or a list of objects. *)
Inductive json :=
| JObject (o : settings)
| JList (l : list settings).

(** How a request can fail before any response arrives. *)
Inductive transport_error :=
| NoConnection
| TimedOut.

(** The exception [requests] raises for it. *)
Definition requests_error (t : transport_error) : exn :=
  match t with
  | NoConnection => RequestsConnectionError
  | TimedOut => RequestsTimeout
  end.

(** What [requests.get] / [requests.post] does: it raises (no connection,
    timeout), or returns a response whose body may not be JSON. *)
Inductive http_outcome :=
| Failed (t : transport_error)
| Response (status_code : Z) (body : option json).

(** The network: the outcome of each request. *)
Definition network := request -> http_outcome.

Record NatureRemoAPI := {
  _access_token : string;
  _host : string;
}.

Definition bearer (api : NatureRemoAPI) : string := "Bearer " +:+ _access_token api.

(** [response.json()]. *)
Definition response_json (body : option json) : result json :=
  match body with
  | Some j => Ok j
  | None => Raise JSONDecodeError
  end.

(** [{x["id"]: x for x in response_json}]. Iterating an object yields its
    keys, and a string has no item ["id"]. *)
Definition by_id (j : json) : result (gmap string settings) :=
  match j with
  | JList l =>
      fold_left (fun acc x =>
                   rbind acc (fun m => rbind (getitem x "id") (fun i => Ok (<[i := x]> m))))
                l (Ok ∅)
  | JObject o => if decide (o = ∅) then Ok ∅ else Raise TypeError
  end.

(** The requests sent so far, oldest first. Sending one appends it and
    yields what the network answers. *)
Abbreviation wire := (list request).

Definition send (net : network) (r : request) : M wire http_outcome :=
  fun log => (Ok (net r), (log ++ [r])%list).

(** [NatureRemoAPI.authenticate_check]. *)
Definition authenticate_check (net : network) (api : NatureRemoAPI) : M wire bool :=
  do response <- send net {| method := GET; url := _host api +:+ "/appliances";
                             authorization := bearer api; data := ∅ |};
  match response with
  | Failed t => raise (requests_error t)
  | Response status_code body =>
      if negb (status_code =? 200) then ret false
      else do response_json <- lift (response_json body);
           do appliances <- lift (by_id response_json);
           ret true
  end.

(** [NatureRemoAPI.get]. *)
Definition api_get (net : network) (api : NatureRemoAPI)
  : M wire (gmap string settings * gmap string settings) :=
  do response <- send net {| method := GET; url := _host api +:+ "/appliances";
                             authorization := bearer api; data := ∅ |};
  match response with
  | Failed t => raise (requests_error t)
  | Response _ body =>
      do j <- lift (response_json body);
      do appliances <- lift (by_id j);
      do response' <- send net {| method := GET; url := _host api +:+ "/devices";
                                  authorization := bearer api; data := ∅ |};
      match response' with
      | Failed t => raise (requests_error t)
      | Response _ body' =>
          do j' <- lift (response_json body');
          do devices <- lift (by_id j');
          ret (appliances, devices)
      end
  end.

(** [NatureRemoAPI.post]: the status code is not looked at. *)
Definition api_post (net : network) (api : NatureRemoAPI) (path : string) (d : payload)
  : M wire json :=
  do response <- send net {| method := POST; url := _host api +:+ path;
                             authorization := bearer api; data := d |};
  match response with
  | Failed t => raise (requests_error t)
  | Response _ body => lift (response_json body)
  end.

(** ** climate.py: the commands *)

(** What a command of the entity acts on: the entity, the requests sent to
    the API, and the states written to Home Assistant
    ([async_write_ha_state] publishes the entity as it is then). *)
Record World := {
  self : NatureRemoAC;
  sent : wire;
  written : list NatureRemoAC;
}.

Definition on_self {A} (m : M NatureRemoAC A) : M World A :=
  fun w => let '(r, s) := m (self w) in
           (r, {| self := s; sent := sent w; written := written w |}).

Definition on_wire {A} (m : M wire A) : M World A :=
  fun w => let '(r, l) := m (sent w) in
           (r, {| self := self w; sent := l; written := written w |}).

Definition async_write_ha_state : M World unit :=
  fun w => (Ok tt, {| self := self w; sent := sent w;
                      written := (written w ++ [self w])%list |}).

(** Subscripting the decoded response with a string: a list has no such item. *)
Definition as_settings (response : json) : result settings :=
  match response with
  | JObject o => Ok o
  | JList _ => Raise TypeError
  end.

Section Commands.

Variable net : network.
Variable api : NatureRemoAPI.   (* self._coordinator.api *)

Definition aircon_settings_path (w : World) : string :=
  "/appliances/" +:+ _appliance_id (self w) +:+ "/aircon_settings".

(** [hass.async_add_executor_job(self._coordinator.api.post, path, data)]. *)
Definition executor_post (d : payload) : M World json :=
  do w <- get;
  on_wire (api_post net api (aircon_settings_path w) d).

(** [self._update(response)] on the decoded response. *)
Definition update_from (response : json) : M World unit :=
  do ac_settings <- lift (as_settings response);
  on_self (_update ac_settings None).

(** [NatureRemoAC._post]. *)
Definition _post (d : payload) : M World unit :=
  do response <- executor_post d;
  run update_from response;
  async_write_ha_state.

(** [NatureRemoAC.async_set_temperature]; [target_temp] is
    [kwargs.get(ATTR_TEMPERATURE)]. *)
Definition async_set_temperature (target_temp : option float) : M World unit :=
  match target_temp with
  | None => ret tt
  | Some t =>
      do text <- (if PyFloat.is_integer t
                  then do z <- lift (PyFloat.to_int t); ret (VStr (pretty z))
                  else ret (VRepr t));
      do response <- executor_post {[ "temperature" := text ]};
      run update_from response;
      async_write_ha_state
  end.

(** [NatureRemoAC.async_set_hvac_mode]. *)
Definition async_set_hvac_mode (hvac_mode : HVACMode) : M World unit :=
  do mode <- lift (getitem_mode MODE_HA_TO_REMO hvac_mode);
  if String.eqb mode POWER_OFF then _post {[ "button" := VStr mode ]}
  else
    let d : payload := {[ "operation_mode" := VStr mode ]} in
    do w <- get;
    do last <- lift (getitem (_last_target_temperature (self w)) mode);
    let default_temp := _default_temp hvac_mode in   (* .get(hvac_mode) *)
    let d' :=
      if str_or_none_truthy last
      then <[ "temperature" := VStr (default "" last) ]> d
      else if int_or_none_truthy default_temp
      then <[ "temperature" := VInt (default 0 default_temp) ]> d
      else d in
    _post d'.

(** [NatureRemoAC.async_set_fan_mode]. *)
Definition async_set_fan_mode (fan_mode : string) : M World unit :=
  do response <- executor_post {[ "air_volume" := VStr fan_mode ]};
  run update_from response;
  async_write_ha_state.

(** [NatureRemoAC.async_set_swing_mode]. *)
Definition async_set_swing_mode (swing_mode : string) : M World unit :=
  _post {[ "air_direction" := VStr swing_mode ]}.

End Commands.

(** The coordinator's data as the entity reads it. *)
Record CoordinatorData := {
  appliances : gmap string Appliance;
  devices : gmap string Device;
}.

(** [NatureRemoAC._update_callback]. *)
Definition _update_callback (d : CoordinatorData) : M World unit :=
  do w <- get;
  do appliance <- lift (getitem (appliances d) (_appliance_id (self w)));
  do device <- lift (getitem (devices d) (device_id (_device (self w))));
  run on_self (_update (appliance_settings appliance) (Some device));
  async_write_ha_state.

(** ** config_flow.py *)

Definition CONF_ACCESS_TOKEN : string := "access_token".
Definition CONF_HOST : string := "host".

(** [validate_input]: the info stored in the config entry, or an exception. *)
Definition validate_input (net : network) (d : gmap string string)
  : M wire (gmap string string) :=
  do host <- lift (getitem d CONF_HOST);
  do access_token <- lift (getitem d CONF_ACCESS_TOKEN);
  let api := {| _access_token := access_token; _host := host |} in
  do authenticated <- authenticate_check net api;
  if negb authenticated then raise InvalidAuth
  else ret {[ "title" := "Nature Remo API Connection" ]}.

Inductive ConfigFlowResult :=
| CreateEntry (title : string) (d : gmap string string)
| ShowForm (step_id : string) (errors : gmap string string).

(** [ConfigFlow.async_step_user]. The three handlers are tried in the order
    of the source; every exception of this model is an [Exception]. *)
Definition async_step_user (net : network) (user_input : option (gmap string string))
  : M wire ConfigFlowResult :=
  match user_input with
  | None => ret (ShowForm "user" ∅)
  | Some input =>
      do outcome <-
        try_except
          (do info <- validate_input net input; ret (inr info))
          (fun e =>
             if catches CannotConnect e then Some (ret (inl "cannot_connect"))
             else if catches InvalidAuth e then Some (ret (inl "invalid_auth"))
             else Some (ret (inl "unknown")));
      match outcome with
      | inl error => ret (ShowForm "user" {[ "base" := error ]})
      | inr info =>
          do title <- lift (getitem info "title");
          ret (CreateEntry title input)
      end
  end.

(** ** The refresh coordinator *)

Module Coordinator.
Section Coordinator.

(** The snapshot the coordinator caches. *)
Variable State : Type.

(** Modelled from the spec: who awaits the refresh in flight, a caller of
    [requestRefresh] (section 4.1), named by a number, or the background
    timer. *)
Inductive waiter :=
| Caller (c : nat)
| Timer.

(** Modelled from the spec: what [requestRefresh] gives back to its caller,
    the resulting State or a [RefreshError] wrapping the cause. *)
Inductive outcome :=
| Refreshed (s : State)
| RefreshError (cause : exn).

(** Modelled from the spec: [coordinator.py] is not among the sources, so
    the coordinator is the one of sections 4.1 and 5 of the specification:
    a cached State, at most one fetch in flight with the callers that
    joined it, the subscribers, and the background scheduler. The fields
    [fetches], [returned], [notifications] and [logged] record what it
    did: the fetches started, what each [requestRefresh] returned, the
    listeners invoked and the failures logged. *)
Record t := {
  cache : option State;
  in_flight : option (list waiter);
  subscribers : list nat;
  running : bool;
  fetches : nat;
  returned : list (nat * outcome);
  notifications : list nat;
  logged : list exn;
}.

(** Modelled from the spec: what happens to the coordinator, one event at a
    time (section 5 allows a cooperative, event-driven coordinator): a call
    of [requestRefresh], a tick of the background timer, the completion of
    the fetch in flight, and [subscribe] / its unsubscribe handle. *)
Inductive event :=
| RequestRefresh (c : nat)
| Tick
| FetchDone (r : result State)
| Subscribe (l : nat)
| Unsubscribe (l : nat).

(** Modelled from the spec: the result of the fetch as a caller gets it. *)
Definition outcome_of (r : result State) : outcome :=
  match r with
  | Ok s => Refreshed s
  | Raise e => RefreshError e
  end.

(** Modelled from the spec: a refresh asked for by [w]. While a fetch is in
    flight the waiter joins it; otherwise a fetch is started. *)
Definition refresh (w : waiter) (co : t) : t :=
  match in_flight co with
  | Some ws =>
      {| cache := cache co; in_flight := Some (ws ++ [w])%list;
         subscribers := subscribers co; running := running co;
         fetches := fetches co; returned := returned co;
         notifications := notifications co; logged := logged co |}
  | None =>
      {| cache := cache co; in_flight := Some [w];
         subscribers := subscribers co; running := running co;
         fetches := S (fetches co); returned := returned co;
         notifications := notifications co; logged := logged co |}
  end.

(** Modelled from the spec: the callers among the waiters, in the order they
    joined. *)
Fixpoint callers (ws : list waiter) : list nat :=
  match ws with
  | [] => []
  | Caller c :: ws' => c :: callers ws'
  | Timer :: ws' => callers ws'
  end.

(** Modelled from the spec: the background timer is among the waiters. *)
Definition timer_waits (ws : list waiter) : bool :=
  existsb (fun w => match w with Timer => true | Caller _ => false end) ws.

(** Modelled from the spec: the fetch in flight completes. On success the
    cache is replaced, every subscriber is notified, and then every caller
    gets the new State. On failure the cache is left as it is, every
    caller gets the error, and the timer's refresh only logs it. *)
Definition fetch_done (r : result State) (co : t) : t :=
  match in_flight co with
  | None => co
  | Some ws =>
      match r with
      | Ok s =>
          {| cache := Some s; in_flight := None;
             subscribers := subscribers co; running := running co;
             fetches := fetches co;
             returned := (returned co ++ map (fun c => (c, Refreshed s)) (callers ws))%list;
             notifications := (notifications co ++ subscribers co)%list;
             logged := logged co |}
      | Raise e =>
          {| cache := cache co; in_flight := None;
             subscribers := subscribers co; running := running co;
             fetches := fetches co;
             returned := (returned co ++ map (fun c => (c, RefreshError e)) (callers ws))%list;
             notifications := notifications co;
             logged := if timer_waits ws then (logged co ++ [e])%list else logged co |}
      end
  end.

(** Modelled from the spec: the coordinator with the subscribers [ls]. *)
Definition with_subscribers (ls : list nat) (co : t) : t :=
  {| cache := cache co; in_flight := in_flight co;
     subscribers := ls; running := running co;
     fetches := fetches co; returned := returned co;
     notifications := notifications co; logged := logged co |}.

(** Modelled from the spec: one event of the cooperative event loop. *)
Definition step (co : t) (ev : event) : t :=
  match ev with
  | RequestRefresh c => refresh (Caller c) co
  | Tick => if running co then refresh Timer co else co
  | FetchDone r => fetch_done r co
  | Subscribe l => with_subscribers (subscribers co ++ [l])%list co
  | Unsubscribe l =>
      with_subscribers (List.filter (fun l' => negb (l' =? l)%nat) (subscribers co)) co
  end.

(** Modelled from the spec: the events of [evs] in order. *)
Definition steps (evs : list event) (co : t) : t := fold_left step evs co.

(** Modelled from the spec: [start(interval)]; an interval below the floor
    is rejected. *)
Definition start (interval : Z) (co : t) : result t :=
  if interval <? MIN_SCAN_INTERVAL then Raise ValueError
  else Ok {| cache := cache co; in_flight := in_flight co;
             subscribers := subscribers co; running := true;
             fetches := fetches co; returned := returned co;
             notifications := notifications co; logged := logged co |}.

(** Modelled from the spec: an event that does not complete the fetch in
    flight. *)
Definition keeps_flying (ev : event) : bool :=
  match ev with
  | FetchDone _ => false
  | _ => true
  end.

(** Modelled from the spec: the callers that ask for a refresh in [evs]. *)
Fixpoint requesters (evs : list event) : list nat :=
  match evs with
  | [] => []
  | RequestRefresh c :: evs' => c :: requesters evs'
  | _ :: evs' => requesters evs'
  end.

End Coordinator.

Arguments Refreshed {State} s.
Arguments RefreshError {State} cause.
Arguments FetchDone {State} r.
Arguments RequestRefresh {State} c.
Arguments Tick {State}.
Arguments Subscribe {State} l.
Arguments Unsubscribe {State} l.
Arguments cache {State} _.
Arguments in_flight {State} _.
Arguments subscribers {State} _.
Arguments running {State} _.
Arguments fetches {State} _.
Arguments returned {State} _.
Arguments notifications {State} _.
Arguments logged {State} _.
Arguments outcome_of {State} r.
Arguments refresh {State} w co.
Arguments fetch_done {State} r co.
Arguments with_subscribers {State} ls co.
Arguments step {State} co ev.
Arguments steps {State} evs co.
Arguments start {State} interval co.
Arguments keeps_flying {State} ev.
Arguments requesters {State} evs.

(** Modelled from the spec: a running coordinator after its initial fetch,
    caching [s]. *)
Definition started {State} (s : State) (ls : list nat) : t State :=
  {| cache := Some s; in_flight := None; subscribers := ls; running := true;
     fetches := 1; returned := []; notifications := []; logged := [] |}.

End Coordinator.

(** ** Example inputs *)

Definition example_device : Device :=
  {| device_id := "dev-1"; device_name := "Remo"; serial_number := "1W320010001";
     firmware_version := "Remo/1.0.77";
     newest_events := Some {[ "te" := {[ "val" := 24.5%float ]} ]} |}.

Definition example_settings : settings :=
  {[ "mode" := "cool"; "temp" := "25"; "button" := ""; "vol" := "auto"; "dir" := "" ]}.

(** An AC whose mode [cool] allows the temperatures [temp]. *)
Definition example_appliance (temp : list string) (s : settings) : Appliance :=
  {| appliance_id := "ac-1"; nickname := "Living"; appliance_type := "AC";
     appliance_device := example_device;
     aircon_range_modes :=
       {[ "cool" := {[ "temp" := temp; "vol" := ["auto"; "1"; "2"]; "dir" := [""] ]};
          "warm" := {[ "temp" := ["20"; "21"]; "vol" := ["auto"]; "dir" := [""] ]} ]};
     appliance_settings := s |}.

Definition example_ac (temp : list string) : NatureRemoAC :=
  snd (__init__ (example_appliance temp example_settings)).

Definition example_api : NatureRemoAPI :=
  {| _access_token := "token"; _host := "https://api.nature.global/1" |}.

(** Settings as the API returns them after the power-off button, the mode
    being [warm]. *)
Definition power_off_settings : settings :=
  {[ "mode" := "warm"; "temp" := "21"; "button" := "power-off"; "vol" := ""; "dir" := "2" ]}.

(** ** The entities that can exist

    An entity is built by [__init__] and afterwards changed by [_update]
    only (from a command's response or from the coordinator's data); an
    update that raises leaves the entity as far as it got. *)
Inductive reachable : NatureRemoAC -> Prop :=
| reachable_init (appliance : Appliance) (self : NatureRemoAC) :
    __init__ appliance = (Ok tt, self) -> reachable self
| reachable_update (s : settings) (dev : option Device) (self : NatureRemoAC) :
    reachable self -> reachable (snd (_update s dev self)).

(** The [POST] a command of [w]'s entity sends with the form body [d]. *)
Definition aircon_post (api : NatureRemoAPI) (w : World) (d : payload) : request :=
  {| method := POST; url := _host api +:+ aircon_settings_path w;
     authorization := bearer api; data := d |}.

(** The example entity with nothing sent and nothing written yet. *)
Definition example_world (ac : NatureRemoAC) : World :=
  {| self := ac; sent := []; written := [] |}.

(** A network that answers every request with the same settings object. *)
Definition answering (s : settings) : network :=
  fun _ => Response 200 (Some (JObject s)).

(** A network on which every request fails to connect. *)
Definition unreachable_network : network := fun _ => Failed NoConnection.

(** Every [POST] on [net] fails with [e]: [requests] raises [e], or the
    body of the response is not JSON and [e] is the decoding error. *)
Definition post_fails (net : network) (e : exn) : Prop :=
  forall r, method r = POST ->
    (exists t, e = requests_error t /\ net r = Failed t) \/
    (e = JSONDecodeError /\ exists status, net r = Response status None).

(** The command raised [e] and left the entity and the written states of
    [w] as they were. *)
Definition failed_without_change (e : exn) (w : World)
    (out : result unit * World) : Prop :=
  fst out = Raise e /\ self (snd out) = self w /\ written (snd out) = written w.

(** What the operator typed into the setup form. *)
Definition example_user_input : gmap string string :=
  {[ CONF_ACCESS_TOKEN := "token"; CONF_HOST := "https://api.nature.global/1" ]}.

(** The request of the auth check. *)
Definition auth_check_request (host access_token : string) : request :=
  {| method := GET; url := host +:+ "/appliances";
     authorization := "Bearer " +:+ access_token; data := ∅ |}.

(** ** The step as the specification words it

    The specification's sentence on the step, kept apart from
    [target_temperature_step]: the step is the difference of the first two
    allowed temperatures when that difference is exactly 1.0 or 0.5, and 1
    in every other case. *)
Definition step_is_exact_difference (self : NatureRemoAC) : Prop :=
  forall l, _current_mode_temp_range self = Ok l ->
    match l with
    | t0 :: t1 :: _ =>
        let d := (t1 - t0)%float in
        if PyFloat.eq d 1%float || PyFloat.eq d 0.5%float
        then target_temperature_step self = Ok (NFloat d)
        else exists n, target_temperature_step self = Ok n /\ num_eqb n (NInt 1) = true
    | _ => exists n, target_temperature_step self = Ok n /\ num_eqb n (NInt 1) = true
    end.

(** ** Facts about floats *)

Module PyFloatFacts.

Lemma SFltb_trans x y z :
  SFltb x y = true -> SFltb y z = true -> SFltb x z = true.
Proof.
  unfold SFltb.
  destruct x as [sx|sx| |sx mx ex], y as [sy|sy| |sy my ey], z as [sz|sz| |sz mz ez];
    simpl;
    repeat match goal with s : bool |- _ => destruct s end; simpl; try congruence;
    change (Pos.compare_cont Eq) with Pos.compare;
    destruct (Z.compare_spec ex ey), (Z.compare_spec ey ez), (Z.compare_spec ex ez);
    try congruence; try lia; subst;
    destruct (Pos.compare_spec mx my), (Pos.compare_spec my mz), (Pos.compare_spec mx mz);
    simpl; try congruence; try lia.
Qed.

Lemma SFltb_irrefl x : SFltb x x = false.
Proof.
  unfold SFltb.
  destruct x as [s|s| |s m e]; simpl; try destruct s; simpl; try reflexivity;
    rewrite Z.compare_refl; change (Pos.compare_cont Eq) with Pos.compare;
    rewrite Pos.compare_refl; reflexivity.
Qed.

Lemma SFleb_total x y :
  x <> S754_nan -> y <> S754_nan -> SFltb x y = false -> SFleb y x = true.
Proof.
  unfold SFltb, SFleb.
  destruct x as [sx|sx| |sx mx ex], y as [sy|sy| |sy my ey]; simpl;
    repeat match goal with s : bool |- _ => destruct s end; simpl; try congruence;
    intros _ _;
    change (Pos.compare_cont Eq) with Pos.compare;
    rewrite (Z.compare_antisym ex ey), (Pos.compare_antisym mx my);
    destruct (ex ?= ey); simpl; try congruence;
    destruct (mx ?= my)%positive; simpl; congruence.
Qed.

Lemma Prim2SF_nan x : Prim2SF x = S754_nan <-> PrimFloat.is_nan x = true.
Proof.
  unfold Prim2SF. destruct (PrimFloat.is_nan x); [tauto|].
  destruct (PrimFloat.is_zero x); [split; discriminate|].
  destruct (PrimFloat.is_infinity x); [split; discriminate|].
  destruct (FloatOps.Z.frexp x) as [r e].
  destruct (shr_fexp _ _ _ _ _) as [s e'].
  destruct (shr_m s); split; discriminate.
Qed.

Lemma SFeqb_finite_eq x s m e :
  SFeqb x (S754_finite s m e) = true -> x = S754_finite s m e.
Proof.
  unfold SFeqb.
  destruct x as [sx|sx| |sx mx ex]; simpl; try destruct sx; try destruct s; simpl;
    try discriminate;
    change (Pos.compare_cont Eq) with Pos.compare;
    destruct (Z.compare_spec ex e); try discriminate; subst;
    destruct (Pos.compare_spec mx m); simpl; try discriminate; subst; reflexivity.
Qed.

(** [x == 1.0] and [x == 0.5] single out one float each. *)
Lemma eq_one x : PyFloat.eq x 1%float = true -> x = 1%float.
Proof.
  unfold PyFloat.eq. rewrite FloatAxioms.eqb_spec. intros H. apply Prim2SF_inj.
  change (Prim2SF 1%float) with (S754_finite false 4503599627370496 (-52)) in *.
  now apply SFeqb_finite_eq.
Qed.

Lemma eq_half x : PyFloat.eq x 0.5%float = true -> x = 0.5%float.
Proof.
  unfold PyFloat.eq. rewrite FloatAxioms.eqb_spec. intros H. apply Prim2SF_inj.
  change (Prim2SF 0.5%float) with (S754_finite false 4503599627370496 (-53)) in *.
  now apply SFeqb_finite_eq.
Qed.

Lemma lt_trans x y z :
  PyFloat.lt x y = true -> PyFloat.lt y z = true -> PyFloat.lt x z = true.
Proof. unfold PyFloat.lt. rewrite !ltb_spec. apply SFltb_trans. Qed.

Lemma lt_irrefl x : PyFloat.lt x x = false.
Proof. unfold PyFloat.lt. rewrite ltb_spec. apply SFltb_irrefl. Qed.

Lemma le_of_not_lt x y :
  PrimFloat.is_nan x = false -> PrimFloat.is_nan y = false ->
  PyFloat.lt x y = false -> PyFloat.le y x = true.
Proof.
  unfold PyFloat.lt, PyFloat.le. rewrite ltb_spec, leb_spec. intros Hx Hy.
  apply SFleb_total; rewrite Prim2SF_nan; congruence.
Qed.

Lemma gt_trans x y z :
  PyFloat.gt x y = true -> PyFloat.gt y z = true -> PyFloat.gt x z = true.
Proof. unfold PyFloat.gt. intros Hxy Hyz. exact (lt_trans _ _ _ Hyz Hxy). Qed.

Lemma gt_irrefl x : PyFloat.gt x x = false.
Proof. apply lt_irrefl. Qed.

Section Extremum.

(** [before a b]: item [a] replaces the current extremum [b]. *)
Variable before : float -> float -> bool.
Hypothesis before_trans : forall x y z,
  before x y = true -> before y z = true -> before x z = true.
Hypothesis before_irrefl : forall x, before x x = false.

Lemma fold_extremum (l : list float) : forall x,
  let m := fold_left (fun cur item => if before item cur then item else cur) l x in
  (m = x \/ (In m l /\ before m x = true)) /\
  (forall y, In y l -> before y m = false).
Proof.
  induction l as [|a l IH]; intros x; simpl.
  - split; [now left|tauto].
  - destruct (before a x) eqn:Hax.
    + specialize (IH a). simpl in IH.
      set (m := fold_left _ l a) in *.
      destruct IH as ([Hm|[Hin Hma]] & Hall).
      * rewrite Hm in *. split; [right; split; [now left|assumption]|].
        intros y [Hy|Hy]; [subst y; apply before_irrefl|now apply Hall].
      * split; [right; split; [now right|eauto]|].
        intros y [Hy|Hy]; [subst y|now apply Hall].
        destruct (before a m) eqn:E; [|reflexivity].
        rewrite <- (before_irrefl a). symmetry. eauto.
    + specialize (IH x). simpl in IH.
      set (m := fold_left _ l x) in *.
      destruct IH as ([Hm|[Hin Hmx]] & Hall).
      * rewrite Hm in *. split; [now left|].
        intros y [Hy|Hy]; [now subst y|now apply Hall].
      * split; [right; split; [now right|assumption]|].
        intros y [Hy|Hy]; [subst y|now apply Hall].
        destruct (before a m) eqn:E; [|reflexivity].
        rewrite <- Hax. symmetry. eauto.
Qed.

(** The fold from the head of a non-empty list: the result is an item
    and no item comes before it. *)
Lemma fold_extremum_head (x : float) (l : list float) :
  let m := fold_left (fun cur item => if before item cur then item else cur) l x in
  In m (x :: l) /\ (forall y, In y (x :: l) -> before y m = false).
Proof.
  pose proof (fold_extremum l x) as H. simpl in H |- *.
  set (m := fold_left _ l x) in *.
  destruct H as ([Hm|[Hin Hmx]] & Hall).
  - rewrite Hm in *. split; [now left|].
    intros y [Hy|Hy]; [subst y; apply before_irrefl|now apply Hall].
  - split; [now right|].
    intros y [Hy|Hy]; [subst y|now apply Hall].
    destruct (before x m) eqn:E; [|reflexivity].
    rewrite <- (before_irrefl x). symmetry. eauto.
Qed.

End Extremum.

Lemma min_spec (x : float) (l : list float) :
  let m := PyFloat.min_from x l in
  In m (x :: l) /\ (forall y, In y (x :: l) -> PyFloat.lt y m = false).
Proof. exact (fold_extremum_head PyFloat.lt lt_trans lt_irrefl x l). Qed.

Lemma max_spec (x : float) (l : list float) :
  let m := PyFloat.max_from x l in
  In m (x :: l) /\ (forall y, In y (x :: l) -> PyFloat.gt y m = false).
Proof. exact (fold_extremum_head PyFloat.gt gt_trans gt_irrefl x l). Qed.

End PyFloatFacts.

(** Values of the float operations, as CPython computes them. *)
Example of_string_values :
  PyFloat.of_string "16.5" = Ok 16.5%float /\
  PyFloat.of_string " 1_0.5e-1 " = Ok 0x1.0cccccccccccdp+0%float /\
  PyFloat.of_string "-Infinity" = Ok PrimFloat.neg_infinity /\
  PyFloat.of_string "1e400" = Ok PrimFloat.infinity /\
  PyFloat.of_string "2.4e-324" = Ok 0%float /\
  PyFloat.of_string "" = Raise ValueError /\
  PyFloat.of_string "1__0" = Raise ValueError /\
  PyFloat.of_string "." = Raise ValueError /\
  PyFloat.of_string "1e" = Raise ValueError.
Proof. repeat split; vm_compute; reflexivity. Qed.

Example round1_values :
  PyFloat.round1 0.25 = 0x1.999999999999ap-3%float /\       (* 0.2 *)
  PyFloat.round1 0x1.5666666666666p+1 = 0x1.599999999999ap+1%float /\  (* 2.675 -> 2.7 *)
  PyFloat.round1 (0x1.0851eb851eb85p+4 - 16) = 0.5%float /\  (* 16.52 - 16 *)
  PyFloat.round1 (0x1.299999999999ap+4 - 0x1.219999999999ap+4) = 0.5%float /\
                                                              (* 18.6 - 18.1 *)
  PrimFloat.eqb (PyFloat.round1 (- 0x1.47ae147ae147bp-5)) 0 = true /\  (* -0.04 -> -0.0 *)
  PyFloat.round1 2 = 2%float.
Proof. repeat split; vm_compute; reflexivity. Qed.

(** ** The allowed temperatures of the current mode *)

Lemma map_result_Forall2 {A B} (f : A -> result B) (l : list A) (l' : list B) :
  map_result f l = Ok l' <-> Forall2 (fun a b => f a = Ok b) l l'.
Proof.
  revert l'. induction l as [|a l IH]; intros l'; simpl.
  - split; [intros [= <-]; constructor|intros H; inversion H; reflexivity].
  - destruct (f a) as [b|e] eqn:Hfa; simpl.
    + destruct (map_result f l) as [bs|e] eqn:Hl; simpl.
      * split.
        -- intros [= <-]. constructor; [assumption|]. now apply IH.
        -- intros H. inversion H as [|? b' ? bs' Hb Hbs]; subst.
           apply IH in Hbs. congruence.
      * split; [discriminate|].
        intros H. inversion H as [|? b' ? bs' Hb Hbs]; subst.
        apply IH in Hbs. discriminate.
    + split; [discriminate|].
      intros H. inversion H as [|? b' ? bs' Hb Hbs]; subst. congruence.
Qed.

Lemma truthy_spec (s : string) : truthy s = true <-> s <> "".
Proof.
  unfold truthy. destruct (String.eqb_spec s ""); simpl; split; congruence.
Qed.

Lemma filter_truthy (raw : list string) :
  List.filter truthy raw = filter (fun s => s <> "") raw.
Proof.
  induction raw as [|s raw IH]; [reflexivity|]. simpl.
  rewrite filter_cons. destruct (decide (s <> "")) as [Hs|Hs].
  - apply truthy_spec in Hs. rewrite Hs. now f_equal.
  - destruct (truthy s) eqn:E; [|assumption]. apply truthy_spec in E. contradiction.
Qed.

Lemma filter_truthy_all_empty (raw : list string) :
  Forall (fun s => s = "") raw -> List.filter truthy raw = [].
Proof.
  induction 1 as [|s raw Hs _ IH]; [reflexivity|]. simpl. now rewrite Hs.
Qed.

Lemma temp_range_unfold (self : NatureRemoAC) mode range raw :
  _remo_mode self = Some mode ->
  _modes self !! mode = Some range ->
  range !! "temp" = Some raw ->
  _current_mode_temp_range self = map_result PyFloat.of_string (List.filter truthy raw).
Proof.
  intros Hmode Hrange Hraw. unfold _current_mode_temp_range, getitem.
  now rewrite Hmode, Hrange; simpl; rewrite Hraw.
Qed.

(** C10. The allowed temperatures are the raw temperatures of the current
    mode without the falsy entries, each converted by [float]; so a raw list
    made of empty strings only gives what the empty raw list gives: no
    allowed temperature, [min_temp] and [max_temp] 0 and step 1. *)
Theorem temp_range_drops_falsy_entries (self : NatureRemoAC) mode range raw :
  _remo_mode self = Some mode ->
  _modes self !! mode = Some range ->
  range !! "temp" = Some raw ->
  (forall l, _current_mode_temp_range self = Ok l <->
             Forall2 (fun s x => PyFloat.of_string s = Ok x)
                     (filter (fun s => s <> "") raw) l) /\
  (Forall (fun s => s = "") raw ->
     _current_mode_temp_range self = Ok [] /\
     min_temp self = Ok (NInt 0) /\
     max_temp self = Ok (NInt 0) /\
     target_temperature_step self = Ok (NInt 1)).
Proof.
  intros Hmode Hrange Hraw.
  pose proof (temp_range_unfold self mode range raw Hmode Hrange Hraw) as Hunf.
  split.
  - intros l. rewrite Hunf, filter_truthy. apply map_result_Forall2.
  - intros Hall.
    assert (_current_mode_temp_range self = Ok []) as H0.
    { rewrite Hunf, (filter_truthy_all_empty raw Hall). reflexivity. }
    unfold min_temp, max_temp, target_temperature_step. rewrite H0. simpl. auto.
Qed.

Lemma temp_range_drops_falsy_entries_witness :
  _current_mode_temp_range (example_ac [""; ""]) = Ok [] /\
  min_temp (example_ac [""; ""]) = Ok (NInt 0) /\
  max_temp (example_ac [""; ""]) = Ok (NInt 0) /\
  target_temperature_step (example_ac [""; ""]) = Ok (NInt 1).
Proof.
  refine (proj2 (temp_range_drops_falsy_entries (example_ac [""; ""]) "cool"
                   {[ "temp" := [""; ""]; "vol" := ["auto"; "1"; "2"]; "dir" := [""] ]}
                   [""; ""] _ _ _) _).
  - vm_compute. reflexivity.
  - vm_compute. reflexivity.
  - vm_compute. reflexivity.
  - repeat constructor.
Defined.

(** ** Minimum, maximum and step *)

(** C4. With no allowed temperature, [min_temp] and [max_temp] return 0 and
    do not raise. Otherwise they return an allowed temperature that no
    allowed temperature is below (above); when no entry is NaN it is below
    (above) or equal to every allowed temperature. *)
Theorem min_max_temp_of_range (self : NatureRemoAC) (l : list float) :
  _current_mode_temp_range self = Ok l ->
  match l with
  | [] => min_temp self = Ok (NInt 0) /\ max_temp self = Ok (NInt 0)
  | _ :: _ =>
      exists lo hi,
        min_temp self = Ok (NFloat lo) /\ max_temp self = Ok (NFloat hi) /\
        In lo l /\ In hi l /\
        (forall x, In x l -> PyFloat.lt x lo = false /\ PyFloat.gt x hi = false) /\
        (Forall (fun x => PrimFloat.is_nan x = false) l ->
         forall x, In x l -> PyFloat.le lo x = true /\ PyFloat.le x hi = true)
  end.
Proof.
  intros H. unfold min_temp, max_temp. rewrite H. simpl.
  destruct l as [|x l']; [auto|]. simpl.
  destruct (PyFloatFacts.min_spec x l') as [Hlo Hlo_min].
  destruct (PyFloatFacts.max_spec x l') as [Hhi Hhi_max].
  simpl in Hlo, Hlo_min, Hhi, Hhi_max.
  exists (PyFloat.min_from x l'), (PyFloat.max_from x l').
  split; [reflexivity|]. split; [reflexivity|].
  split; [assumption|]. split; [assumption|]. split.
  - intros y Hy. split; [now apply Hlo_min|now apply Hhi_max].
  - intros Hnan y Hy.
    assert (forall z, In z (x :: l') -> PrimFloat.is_nan z = false) as Hnot_nan.
    { intros z Hz. rewrite Forall_forall in Hnan. apply Hnan. now apply list_elem_of_In. }
    split; apply PyFloatFacts.le_of_not_lt; auto.
    apply (Hhi_max y Hy).
Qed.

Lemma min_max_temp_of_range_witness :
  (min_temp (example_ac []) = Ok (NInt 0) /\ max_temp (example_ac []) = Ok (NInt 0)) /\
  exists lo hi,
    min_temp (example_ac ["18"; ""; "16.5"; "30"]) = Ok (NFloat lo) /\
    max_temp (example_ac ["18"; ""; "16.5"; "30"]) = Ok (NFloat hi) /\
    In lo [18; 16.5; 30]%float /\ In hi [18; 16.5; 30]%float /\
    (forall x, In x [18; 16.5; 30]%float ->
               PyFloat.lt x lo = false /\ PyFloat.gt x hi = false) /\
    (Forall (fun x => PrimFloat.is_nan x = false) [18; 16.5; 30]%float ->
     forall x, In x [18; 16.5; 30]%float ->
               PyFloat.le lo x = true /\ PyFloat.le x hi = true).
Proof.
  split.
  - apply (min_max_temp_of_range (example_ac []) []). vm_compute. reflexivity.
  - apply (min_max_temp_of_range (example_ac ["18"; ""; "16.5"; "30"])
             [18; 16.5; 30]%float).
    vm_compute. reflexivity.
Defined.

Example min_temp_example :
  min_temp (example_ac ["18"; ""; "16.5"; "30"]) = Ok (NFloat 16.5) /\
  max_temp (example_ac ["18"; ""; "16.5"; "30"]) = Ok (NFloat 30).
Proof. split; vm_compute; reflexivity. Qed.

(** With a NaN among the allowed temperatures the result depends on the
    order of the entries, as Python's [min] does. *)
Example min_temp_nan_first :
  exists x, min_temp (example_ac ["nan"; "16"]) = Ok (NFloat x) /\
            PrimFloat.is_nan x = true.
Proof. eexists. split; vm_compute; reflexivity. Qed.

Lemma step_unfold (self : NatureRemoAC) (l : list float) :
  _current_mode_temp_range self = Ok l ->
  target_temperature_step self =
    Ok match l with
       | t0 :: t1 :: _ =>
           let step := PyFloat.round1 (t1 - t0)%float in
           if PyFloat.eq step 1%float || PyFloat.eq step 0.5%float
           then NFloat step else NInt 1
       | _ => NInt 1
       end.
Proof.
  intros H. unfold target_temperature_step. rewrite H. simpl.
  destruct l as [|t0 [|t1 l']]; try reflexivity.
  now destruct (_ || _).
Qed.

(** C2, as stated, fails: the allowed temperatures 16 and 16.52 differ by
    0.52 (neither 1.0 nor 0.5), and the step is 0.5, not 1. *)
Lemma step_is_exact_difference_refuted :
  ~ step_is_exact_difference (example_ac ["16"; "16.52"]).
Proof.
  intros H.
  assert (_current_mode_temp_range (example_ac ["16"; "16.52"]) =
          Ok [16; 0x1.0851eb851eb85p+4]%float) as Hrange
    by (vm_compute; reflexivity).
  assert (target_temperature_step (example_ac ["16"; "16.52"]) = Ok (NFloat 0.5))
    as Hstep by (vm_compute; reflexivity).
  specialize (H _ Hrange). cbv beta iota zeta in H.
  replace (PyFloat.eq (0x1.0851eb851eb85p+4 - 16) 1 ||
           PyFloat.eq (0x1.0851eb851eb85p+4 - 16) 0.5)%float with false in H
    by (vm_compute; reflexivity).
  destruct H as (n & Hn & Hone).
  rewrite Hstep in Hn. injection Hn as <-.
  vm_compute in Hone. clear - Hone. discriminate.
Qed.

(** C2, amended. The step is the difference of the first two allowed
    temperatures rounded to one decimal when that rounded value is 1.0 or
    0.5, and 1 otherwise (fewer than two entries included). So the step is
    always 1.0, 0.5 or 1; a difference of exactly 1.0 or 0.5 is the step;
    for [16, 16.5, 17] the step is 0.5 and for [16, 18, 20] it is 1. *)
Theorem step_is_rounded_difference (self : NatureRemoAC) (l : list float) :
  _current_mode_temp_range self = Ok l ->
  target_temperature_step self =
    Ok match l with
       | t0 :: t1 :: _ =>
           let step := PyFloat.round1 (t1 - t0)%float in
           if PyFloat.eq step 1%float || PyFloat.eq step 0.5%float
           then NFloat step else NInt 1
       | _ => NInt 1
       end /\
  (target_temperature_step self = Ok (NFloat 1) \/
   target_temperature_step self = Ok (NFloat 0.5) \/
   target_temperature_step self = Ok (NInt 1)) /\
  (forall t0 t1 rest, l = t0 :: t1 :: rest ->
     (t1 - t0 = 1 \/ t1 - t0 = 0.5)%float ->
     target_temperature_step self = Ok (NFloat (t1 - t0))) /\
  (l = [16; 16.5; 17]%float -> target_temperature_step self = Ok (NFloat 0.5)) /\
  (l = [16; 18; 20]%float -> target_temperature_step self = Ok (NInt 1)).
Proof.
  intros H. pose proof (step_unfold self l H) as Hstep.
  split; [assumption|]. rewrite Hstep. split; [|split; [|split]].
  - destruct l as [|t0 [|t1 l']]; auto. simpl.
    destruct (PyFloat.eq _ 1) eqn:E1; simpl.
    + left. now rewrite (PyFloatFacts.eq_one _ E1).
    + destruct (PyFloat.eq _ 0.5) eqn:E2; [|auto].
      right. left. now rewrite (PyFloatFacts.eq_half _ E2).
  - intros t0 t1 rest -> [Hd|Hd]; simpl; rewrite Hd; vm_compute; reflexivity.
  - intros ->. vm_compute. reflexivity.
  - intros ->. vm_compute. reflexivity.
Qed.

Lemma step_is_rounded_difference_witness :
  target_temperature_step (example_ac ["16"; "16.5"; "17"]) = Ok (NFloat 0.5) /\
  target_temperature_step (example_ac ["16"; "18"; "20"]) = Ok (NInt 1) /\
  target_temperature_step (example_ac ["16"; "16.52"]) = Ok (NFloat 0.5).
Proof.
  split; [|split].
  - apply (step_is_rounded_difference (example_ac ["16"; "16.5"; "17"])
             [16; 16.5; 17]%float); [vm_compute|]; reflexivity.
  - apply (step_is_rounded_difference (example_ac ["16"; "18"; "20"])
             [16; 18; 20]%float); [vm_compute|]; reflexivity.
  - refine (eq_trans (proj1 (step_is_rounded_difference (example_ac ["16"; "16.52"])
             [16; 0x1.0851eb851eb85p+4]%float _)) _); vm_compute; reflexivity.
Defined.

(** ** [_update], statement by statement *)

Lemma of_string_raises s e : PyFloat.of_string s = Raise e -> e = ValueError.
Proof. unfold PyFloat.of_string. destruct (PyFloat.of_chars _); congruence. Qed.

Lemma device_te_val_raises d e : device_te_val d = Raise e -> e = KeyError.
Proof.
  unfold device_te_val, rbind, getitem.
  destruct (newest_events d) as [ev|]; [|congruence].
  destruct (ev !! "te") as [te|]; [|congruence].
  destruct (te !! "val"); congruence.
Qed.

Lemma update_target_temperature_eq (s : settings) (mode : string) (self : NatureRemoAC) :
  update_target_temperature s mode self =
    (Ok tt,
     match s !! "temp" with
     | Some temp =>
         match PyFloat.of_string temp with
         | Ok x => set_last_target_temperature
                     (<[mode := Some temp]> (_last_target_temperature self))
                     (set_target_temperature (Some x) self)
         | Raise _ => set_target_temperature None self
         end
     | None => set_target_temperature None self
     end).
Proof.
  unfold update_target_temperature, try_except, bind, lift, modify, getitem.
  destruct (s !! "temp") as [temp|]; [|reflexivity].
  destruct (PyFloat.of_string temp) as [x|e] eqn:E; [reflexivity|].
  apply of_string_raises in E. subst e. reflexivity.
Qed.

Lemma update_hvac_mode_eq (button mode : string) (self : NatureRemoAC) :
  update_hvac_mode button mode self =
    if String.eqb button POWER_OFF then (Ok tt, set_hvac_mode (Some OFF) self)
    else match MODE_REMO_TO_HA !! mode with
         | Some h => (Ok tt, set_hvac_mode (Some h) self)
         | None => (Raise KeyError, self)
         end.
Proof.
  unfold update_hvac_mode, bind, lift, modify, getitem.
  destruct (String.eqb button POWER_OFF); [reflexivity|].
  now destruct (MODE_REMO_TO_HA !! mode).
Qed.

Lemma update_current_temperature_eq (d : Device) (self : NatureRemoAC) :
  update_current_temperature d self =
    (Ok tt,
     match device_te_val d with
     | Ok x => set_current_temperature (Some x) self
     | Raise _ => self
     end).
Proof.
  unfold update_current_temperature, try_except, bind, lift, modify, ret.
  destruct (device_te_val d) as [x|e] eqn:E; [reflexivity|].
  apply device_te_val_raises in E. subst e. reflexivity.
Qed.

Lemma _update_eq (s : settings) (dev : option Device) (self : NatureRemoAC) :
  _update s dev self =
    match s !! "mode" with
    | None => (Raise KeyError, self)
    | Some mode =>
        let self1 := snd (update_target_temperature s mode (set_remo_mode (Some mode) self)) in
        match s !! "button" with
        | None => (Raise KeyError, self1)
        | Some button =>
            match update_hvac_mode button mode self1 with
            | (Raise e, self2) => (Raise e, self2)
            | (Ok _, self2) =>
                match s !! "vol" with
                | None => (Raise KeyError, self2)
                | Some vol =>
                    let self3 := set_fan_mode (or_none vol) self2 in
                    match s !! "dir" with
                    | None => (Raise KeyError, self3)
                    | Some dir =>
                        let self4 := set_swing_mode (or_none dir) self3 in
                        match dev with
                        | None => (Ok tt, self4)
                        | Some d => update_current_temperature d self4
                        end
                    end
                end
            end
        end
    end.
Proof.
  unfold _update, bind, lift, modify, getitem, ret.
  destruct (s !! "mode") as [mode|]; [|reflexivity].
  rewrite update_target_temperature_eq. cbn [snd].
  destruct (s !! "button") as [button|]; [|reflexivity].
  destruct (update_hvac_mode button mode _) as [[[]|e] self2]; [|reflexivity].
  destruct (s !! "vol") as [vol|]; [|reflexivity].
  destruct (s !! "dir") as [dir|]; [|reflexivity].
  destruct dev; reflexivity.
Qed.

(** The fields of the state [_update] leaves, read through its blocks. *)
Ltac update_fields :=
  rewrite ?update_target_temperature_eq, ?update_current_temperature_eq;
  cbn [fst snd];
  repeat match goal with
         | |- context [match ?x with _ => _ end] => destruct x
         end;
  try reflexivity.

(** C5. After an update from settings whose button is the power-off value,
    [hvac_mode] is OFF while [_remo_mode] holds the mode of the settings;
    with another button [hvac_mode] is the translation of that mode. The
    update succeeds when the settings also carry [vol] and [dir]. *)
Theorem hvac_mode_after_update (s : settings) (dev : option Device)
    (self : NatureRemoAC) (mode button : string) :
  s !! "mode" = Some mode ->
  s !! "button" = Some button ->
  let self' := snd (_update s dev self) in
  _remo_mode self' = Some mode /\
  (button = POWER_OFF ->
     hvac_mode self' = Some OFF /\
     (is_Some (s !! "vol") -> is_Some (s !! "dir") ->
      fst (_update s dev self) = Ok tt)) /\
  (button <> POWER_OFF ->
     forall h, MODE_REMO_TO_HA !! mode = Some h ->
       hvac_mode self' = Some h /\
       (is_Some (s !! "vol") -> is_Some (s !! "dir") ->
        fst (_update s dev self) = Ok tt)).
Proof.
  intros Hmode Hbutton. cbv zeta. rewrite _update_eq, Hmode, Hbutton. cbv zeta.
  rewrite update_hvac_mode_eq. unfold hvac_mode.
  destruct (String.eqb_spec button POWER_OFF) as [Hoff|Hon].
  - split; [|split; [intros _; split|contradiction]].
    + destruct (s !! "vol"), (s !! "dir"), dev; update_fields.
    + destruct (s !! "vol"), (s !! "dir"), dev; update_fields.
    + intros [v Hv] [d Hd]. rewrite Hv, Hd. destruct dev; update_fields.
  - split; [|split; [contradiction|intros _ h Hh; rewrite Hh; split]].
    + destruct (MODE_REMO_TO_HA !! mode), (s !! "vol"), (s !! "dir"), dev; update_fields.
    + destruct (s !! "vol"), (s !! "dir"), dev; update_fields.
    + intros [v Hv] [d Hd]. rewrite Hv, Hd. destruct dev; update_fields.
Qed.

Lemma hvac_mode_after_update_witness :
  let self' := snd (_update power_off_settings None (example_ac [])) in
  _remo_mode self' = Some "warm" /\ hvac_mode self' = Some OFF /\
  fst (_update power_off_settings None (example_ac [])) = Ok tt.
Proof.
  assert (power_off_settings !! "mode" = Some "warm") as Hmode
    by (vm_compute; reflexivity).
  assert (power_off_settings !! "button" = Some POWER_OFF) as Hbutton
    by (vm_compute; reflexivity).
  destruct (hvac_mode_after_update power_off_settings None (example_ac [])
              "warm" POWER_OFF Hmode Hbutton) as (Hremo & Hoff & _).
  destruct (Hoff eq_refl) as [Hhvac Hok].
  split; [exact Hremo|]. split; [exact Hhvac|].
  apply Hok; eexists; vm_compute; reflexivity.
Defined.

Lemma or_none_spec (v : string) :
  or_none v = (if decide (v = "") then None else Some v) /\ or_none v <> Some "".
Proof.
  unfold or_none. destruct (truthy v) eqn:E.
  - apply truthy_spec in E. destruct (decide (v = "")); [contradiction|].
    split; congruence.
  - destruct (decide (v = "")) as [Hv|Hv]; [split; congruence|].
    apply truthy_spec in Hv. congruence.
Qed.

(** What a successful update needs from the settings. *)
Lemma _update_ok (s : settings) (dev : option Device) (self : NatureRemoAC)
    (mode button vol dir : string) :
  s !! "mode" = Some mode ->
  s !! "button" = Some button ->
  s !! "vol" = Some vol ->
  s !! "dir" = Some dir ->
  button = POWER_OFF \/ is_Some (MODE_REMO_TO_HA !! mode) ->
  let self' := snd (_update s dev self) in
  fst (_update s dev self) = Ok tt /\
  _fan_mode self' = or_none vol /\ _swing_mode self' = or_none dir.
Proof.
  intros Hmode Hbutton Hvol Hdir Hb. cbv zeta.
  rewrite _update_eq, Hmode, Hbutton, Hvol, Hdir. cbv zeta.
  rewrite update_hvac_mode_eq.
  destruct (String.eqb_spec button POWER_OFF) as [Hoff|Hon].
  - destruct dev; update_fields; auto.
  - destruct Hb as [Hb|[h Hh]]; [contradiction|]. rewrite Hh.
    destruct dev; update_fields; auto.
Qed.

(** C9. After a successful update, [fan_mode] and [swing_mode] are [None]
    when the [vol] and [dir] of the settings are empty, and that value
    otherwise; they are never the empty string. The update succeeds when
    the settings carry [mode], [button], [vol] and [dir], and the button is
    power-off or the mode has a translation. *)
Theorem fan_and_swing_after_update (s : settings) (dev : option Device)
    (self : NatureRemoAC) (mode button vol dir : string) :
  s !! "mode" = Some mode ->
  s !! "button" = Some button ->
  s !! "vol" = Some vol ->
  s !! "dir" = Some dir ->
  button = POWER_OFF \/ is_Some (MODE_REMO_TO_HA !! mode) ->
  let self' := snd (_update s dev self) in
  fst (_update s dev self) = Ok tt /\
  fan_mode self' = (if decide (vol = "") then None else Some vol) /\
  swing_mode self' = (if decide (dir = "") then None else Some dir) /\
  fan_mode self' <> Some "" /\ swing_mode self' <> Some "".
Proof.
  intros Hmode Hbutton Hvol Hdir Hb.
  destruct (_update_ok s dev self mode button vol dir Hmode Hbutton Hvol Hdir Hb)
    as (Hok & Hfan & Hswing).
  cbv zeta. unfold fan_mode, swing_mode. rewrite Hfan, Hswing.
  destruct (or_none_spec vol) as [-> Hv], (or_none_spec dir) as [-> Hd]. auto.
Qed.

Lemma fan_and_swing_after_update_witness :
  let self' := snd (_update power_off_settings None (example_ac [])) in
  fst (_update power_off_settings None (example_ac [])) = Ok tt /\
  fan_mode self' = None /\ swing_mode self' = Some "2".
Proof.
  assert (power_off_settings !! "mode" = Some "warm") as Hmode
    by (vm_compute; reflexivity).
  assert (power_off_settings !! "button" = Some POWER_OFF) as Hbutton
    by (vm_compute; reflexivity).
  assert (power_off_settings !! "vol" = Some "") as Hvol
    by (vm_compute; reflexivity).
  assert (power_off_settings !! "dir" = Some "2") as Hdir
    by (vm_compute; reflexivity).
  destruct (fan_and_swing_after_update power_off_settings None (example_ac [])
              "warm" POWER_OFF "" "2" Hmode Hbutton Hvol Hdir (or_introl eq_refl))
    as (Hok & Hfan & Hswing & _).
  split; [exact Hok|]. split; [exact Hfan|exact Hswing].
Defined.

(** Whether or not the update succeeds, it leaves each of the two fields as
    it was or sets it to [vol or None] ([dir or None]). *)
Lemma _update_fan_swing (s : settings) (dev : option Device) (self : NatureRemoAC) :
  let self' := snd (_update s dev self) in
  (_fan_mode self' = _fan_mode self \/ exists vol, _fan_mode self' = or_none vol) /\
  (_swing_mode self' = _swing_mode self \/ exists dir, _swing_mode self' = or_none dir).
Proof.
  cbv zeta. rewrite _update_eq. destruct (s !! "mode") as [mode|]; [|auto].
  cbv zeta. destruct (s !! "button") as [button|].
  - rewrite update_hvac_mode_eq.
    destruct (String.eqb button POWER_OFF), (MODE_REMO_TO_HA !! mode),
      (s !! "vol"), (s !! "dir"), dev;
      rewrite ?update_target_temperature_eq, ?update_current_temperature_eq;
      cbn [fst snd];
      repeat match goal with
             | |- context [match ?x with _ => _ end] => destruct x
             end;
      cbn; split; first [left; reflexivity | right; eexists; reflexivity].
  - rewrite update_target_temperature_eq. cbn [snd].
    repeat match goal with
           | |- context [match ?x with _ => _ end] => destruct x
           end; cbn; auto.
Qed.

(** No entity ever reports the empty string as its fan or swing mode. *)
Lemma reachable_fan_swing_not_empty (self : NatureRemoAC) :
  reachable self -> fan_mode self <> Some "" /\ swing_mode self <> Some "".
Proof.
  assert (forall s dev self0,
            (_fan_mode self0 <> Some "" /\ _swing_mode self0 <> Some "") ->
            _fan_mode (snd (_update s dev self0)) <> Some "" /\
            _swing_mode (snd (_update s dev self0)) <> Some "") as Hstep.
  { intros s dev self0 [Hfan Hswing].
    destruct (_update_fan_swing s dev self0) as [[->|[vol ->]] [->|[dir ->]]];
      split; try assumption; apply or_none_spec. }
  unfold fan_mode, swing_mode.
  induction 1 as [appliance self Hinit|s dev self _ IH]; [|now apply Hstep].
  unfold __init__ in Hinit.
  match type of Hinit with
  | _update ?s ?d ?self0 = _ =>
      replace self with (snd (_update s d self0)) by now rewrite Hinit
  end.
  apply Hstep. split; discriminate.
Qed.

(** ** The remembered temperatures *)

Lemma _update_last_target_temperature (s : settings) (dev : option Device)
    (self : NatureRemoAC) :
  _last_target_temperature (snd (_update s dev self)) =
    match s !! "mode", s !! "temp" with
    | Some mode, Some temp =>
        match PyFloat.of_string temp with
        | Ok _ => <[mode := Some temp]> (_last_target_temperature self)
        | Raise _ => _last_target_temperature self
        end
    | _, _ => _last_target_temperature self
    end.
Proof.
  rewrite _update_eq. destruct (s !! "mode") as [mode|]; [|reflexivity].
  cbv zeta. destruct (s !! "button") as [button|].
  - rewrite update_hvac_mode_eq.
    destruct (String.eqb button POWER_OFF), (MODE_REMO_TO_HA !! mode),
      (s !! "vol"), (s !! "dir"), dev; update_fields.
  - update_fields.
Qed.

Lemma of_string_empty : PyFloat.of_string "" = Raise ValueError.
Proof. reflexivity. Qed.

(** Every mode a command can name has an entry, and a remembered
    temperature is a text that [float] accepts (so it is not empty). *)
Lemma reachable_last_target_temperature (self : NatureRemoAC) :
  reachable self ->
  (forall h mode, MODE_HA_TO_REMO h = Some mode ->
                  is_Some (_last_target_temperature self !! mode)) /\
  (forall k temp, _last_target_temperature self !! k = Some (Some temp) ->
                  exists x, PyFloat.of_string temp = Ok x).
Proof.
  assert (forall s dev self0,
    ((forall h mode, MODE_HA_TO_REMO h = Some mode ->
                     is_Some (_last_target_temperature self0 !! mode)) /\
     (forall k temp, _last_target_temperature self0 !! k = Some (Some temp) ->
                     exists x, PyFloat.of_string temp = Ok x)) ->
    ((forall h mode, MODE_HA_TO_REMO h = Some mode ->
        is_Some (_last_target_temperature (snd (_update s dev self0)) !! mode)) /\
     (forall k temp,
        _last_target_temperature (snd (_update s dev self0)) !! k = Some (Some temp) ->
        exists x, PyFloat.of_string temp = Ok x))) as Hstep.
  { intros s dev self0 [Hkeys Hvals]. rewrite _update_last_target_temperature.
    destruct (s !! "mode") as [mode|]; [|auto].
    destruct (s !! "temp") as [temp|]; [|auto].
    destruct (PyFloat.of_string temp) as [x|e] eqn:Hx; [|auto].
    split.
    - intros h mode' Hh. destruct (decide (mode = mode')) as [->|Hne].
      + rewrite lookup_insert_eq. eauto.
      + rewrite lookup_insert_ne by assumption. eauto.
    - intros k temp'. destruct (decide (mode = k)) as [->|Hne].
      + rewrite lookup_insert_eq. intros [= <-]. eauto.
      + rewrite lookup_insert_ne by assumption. eauto. }
  induction 1 as [appliance self Hinit|s dev self _ IH]; [|now apply Hstep].
  unfold __init__ in Hinit.
  match type of Hinit with
  | _update ?s ?d ?self0 = _ =>
      replace self with (snd (_update s d self0)) by now rewrite Hinit
  end.
  apply Hstep. cbn [_last_target_temperature]. split.
  - intros h mode Hh. rewrite lookup_fmap.
    destruct h; simplify_eq/=; vm_compute; eauto.
  - intros k temp. rewrite lookup_fmap.
    destruct (MODE_REMO_TO_HA !! k); simpl; congruence.
Qed.

(** ** The commands *)

Lemma on_self_update_sent (s : settings) (w : World) :
  sent (snd (on_self (_update s None) w)) = sent w /\
  written (snd (on_self (_update s None) w)) = written w.
Proof. unfold on_self. now destruct (_update s None (self w)). Qed.

Lemma api_post_sent (net : network) (api : NatureRemoAPI) (path : string)
    (d : payload) (log : wire) :
  snd (api_post net api path d log) =
    (log ++ [{| method := POST; url := _host api +:+ path;
                authorization := bearer api; data := d |}])%list.
Proof.
  unfold api_post, bind, send, raise, lift, response_json.
  now destruct (net _) as [t|status [j|]].
Qed.

(** A [_post] sends one request, whatever comes back. *)
Lemma _post_sent (net : network) (api : NatureRemoAPI) (d : payload) (w : World) :
  sent (snd (_post net api d w)) =
    (sent w ++ [{| method := POST; url := _host api +:+ aircon_settings_path w;
                   authorization := bearer api; data := d |}])%list.
Proof.
  unfold _post, executor_post, bind, get, on_wire.
  pose proof (api_post_sent net api (aircon_settings_path w) d (sent w)) as Hsent.
  destruct (api_post net api (aircon_settings_path w) d (sent w)) as [[j|e] log];
    cbn [snd] in Hsent; subst log; [|reflexivity].
  unfold update_from, bind, lift, as_settings. destruct j as [o|l]; [|reflexivity].
  pose proof (on_self_update_sent o
    {| self := self w;
       sent := (sent w ++ [{| method := POST;
                              url := _host api +:+ aircon_settings_path w;
                              authorization := bearer api; data := d |}])%list;
       written := written w |}) as [Hs _].
  destruct (on_self (_update o None) _) as [[[]|e] w']; cbn [snd sent] in *;
    [|assumption].
  unfold async_write_ha_state. cbn [snd sent]. assumption.
Qed.

(** The commands and the coordinator's callback change the entity through
    [_update] only, so they keep it among the entities that can exist. *)
Lemma executor_post_self (net : network) (api : NatureRemoAPI) (d : payload) (w : World) :
  self (snd (executor_post net api d w)) = self w.
Proof.
  unfold executor_post, bind, get, on_wire.
  now destruct (api_post net api (aircon_settings_path w) d (sent w)) as [[j|e] log].
Qed.

Lemma on_self_update_reachable (s : settings) (dev : option Device) (w : World) :
  reachable (self w) -> reachable (self (snd (on_self (_update s dev) w))).
Proof.
  intros Hreach. unfold on_self.
  pose proof (reachable_update s dev (self w) Hreach) as H.
  now destruct (_update s dev (self w)).
Qed.

Lemma update_from_reachable (response : json) (w : World) :
  reachable (self w) -> reachable (self (snd (update_from response w))).
Proof.
  intros Hreach. unfold update_from, bind, lift, as_settings.
  destruct response as [o|l]; [|assumption].
  now apply on_self_update_reachable.
Qed.

Lemma after_post_reachable (net : network) (api : NatureRemoAPI) (d : payload) (w : World) :
  reachable (self w) ->
  reachable (self (snd
    ((do response <- executor_post net api d;
      run update_from response;
      async_write_ha_state) w))).
Proof.
  intros Hreach. unfold bind.
  pose proof (executor_post_self net api d w) as Hself.
  destruct (executor_post net api d w) as [[j|e] w1]; cbn [snd] in *;
    [|now rewrite Hself].
  assert (reachable (self w1)) as Hreach1 by now rewrite Hself.
  pose proof (update_from_reachable j w1 Hreach1) as Hupd.
  destruct (update_from j w1) as [[[]|e] w2]; cbn [snd] in *; assumption.
Qed.

Lemma commands_preserve_reachable (net : network) (api : NatureRemoAPI) (w : World) :
  reachable (self w) ->
  (forall t, reachable (self (snd (async_set_temperature net api t w)))) /\
  (forall h, reachable (self (snd (async_set_hvac_mode net api h w)))) /\
  (forall fan, reachable (self (snd (async_set_fan_mode net api fan w)))) /\
  (forall swing, reachable (self (snd (async_set_swing_mode net api swing w)))) /\
  (forall d, reachable (self (snd (_update_callback d w)))).
Proof.
  intros Hreach. split; [|split; [|split; [|split]]].
  - intros [t|]; [|assumption]. unfold async_set_temperature.
    destruct (PyFloat.is_integer t); unfold bind at 1, lift, ret.
    + destruct (PyFloat.to_int t) as [z|e]; [|assumption].
      now apply after_post_reachable.
    + now apply after_post_reachable.
  - intros h. unfold async_set_hvac_mode, bind at 1, lift, getitem_mode.
    destruct (MODE_HA_TO_REMO h) as [mode|]; [|assumption].
    destruct (String.eqb mode POWER_OFF); [now apply after_post_reachable|].
    unfold bind at 1, get. unfold bind at 1, lift, getitem.
    destruct (_last_target_temperature (self w) !! mode); [|assumption].
    now apply after_post_reachable.
  - intros fan. now apply after_post_reachable.
  - intros swing. now apply after_post_reachable.
  - intros d. unfold _update_callback, bind at 1, get.
    unfold bind at 1, lift, getitem.
    destruct (appliances d !! _) as [appliance|]; [|assumption].
    unfold bind at 1, lift, getitem.
    destruct (devices d !! _) as [device|]; [|assumption].
    unfold bind.
    pose proof (on_self_update_reachable (appliance_settings appliance) (Some device) w
                  Hreach) as Hupd.
    destruct (on_self _ w) as [[[]|e] w1]; cbn [snd] in *; assumption.
Qed.

(** C3. Setting an hvac mode other than off sends one request whose body
    names the mode, with the temperature remembered for that mode when one
    was recorded, else with the default temperature of the mode when it has
    one (cool: 28, heat: 20), else without a temperature. *)
Theorem set_hvac_mode_payload (net : network) (api : NatureRemoAPI) (w : World)
    (h : HVACMode) (mode : string) :
  reachable (self w) ->
  MODE_HA_TO_REMO h = Some mode ->
  mode <> POWER_OFF ->
  exists d : payload,
    sent (snd (async_set_hvac_mode net api h w)) = (sent w ++ [aircon_post api w d])%list /\
    d !! "operation_mode" = Some (VStr mode) /\
    (forall k, k <> "operation_mode" -> k <> "temperature" -> d !! k = None) /\
    match _last_target_temperature (self w) !! mode with
    | Some (Some temp) => d !! "temperature" = Some (VStr temp)
    | _ =>
        match h with
        | COOL => d !! "temperature" = Some (VInt 28)
        | HEAT => d !! "temperature" = Some (VInt 20)
        | _ => d !! "temperature" = None
        end
    end.
Proof.
  intros Hreach Hmode Hon.
  destruct (reachable_last_target_temperature (self w) Hreach) as [Hkeys Hvals].
  destruct (Hkeys h mode Hmode) as [last Hlast].
  unfold async_set_hvac_mode, bind, lift, getitem_mode, get, getitem.
  rewrite Hmode. cbn beta iota.
  destruct (String.eqb_spec mode POWER_OFF) as [|_]; [contradiction|].
  rewrite Hlast. cbn beta iota zeta.
  eexists. split; [apply _post_sent|].
  destruct last as [temp|]; cbn [str_or_none_truthy default].
  - destruct (Hvals mode temp Hlast) as [x Hx].
    assert (truthy temp = true) as ->.
    { apply truthy_spec. intros ->. rewrite of_string_empty in Hx. discriminate. }
    split; [|split].
    + now rewrite lookup_insert_ne, lookup_singleton_eq.
    + intros k Hk1 Hk2. rewrite lookup_insert_ne, lookup_singleton_ne; congruence.
    + now rewrite lookup_insert_eq.
  - destruct h; try discriminate; cbn [_default_temp int_or_none_truthy default];
      cbn [DEFAULT_COOL_TEMP DEFAULT_HEAT_TEMP Z.eqb negb];
      (split; [|split];
       [ rewrite ?lookup_insert_ne by discriminate; now rewrite lookup_singleton_eq
       | intros k Hk1 Hk2;
         rewrite ?lookup_insert_ne by congruence; now rewrite lookup_singleton_ne
       | rewrite ?lookup_insert_eq; try reflexivity;
         now rewrite lookup_singleton_ne ]).
Qed.

Lemma example_ac_reachable (temp : list string) : reachable (example_ac temp).
Proof.
  apply (reachable_init (example_appliance temp example_settings)).
  vm_compute. reflexivity.
Qed.

Lemma set_hvac_mode_payload_witness :
  exists d : payload,
    sent (snd (async_set_hvac_mode (answering example_settings) example_api COOL
                 (example_world (example_ac [])))) =
      [aircon_post example_api (example_world (example_ac [])) d] /\
    d !! "operation_mode" = Some (VStr "cool") /\
    d !! "temperature" = Some (VStr "25").
Proof.
  destruct (set_hvac_mode_payload (answering example_settings) example_api
              (example_world (example_ac [])) COOL "cool"
              (example_ac_reachable []) eq_refl)
    as (d & Hsent & Hmode & _ & Htemp).
  - discriminate.
  - exists d. split; [exact Hsent|]. split; [exact Hmode|].
    replace (_last_target_temperature (self (example_world (example_ac []))) !! "cool")
      with (Some (Some "25")) in Htemp by (vm_compute; reflexivity).
    exact Htemp.
Defined.

(** A mode never seen before falls back to the default of the mode. *)
Example set_hvac_mode_default :
  (data <$> sent (snd (async_set_hvac_mode (answering example_settings) example_api HEAT
                         (example_world (example_ac []))))) =
    [ {[ "operation_mode" := VStr "warm"; "temperature" := VInt 20 ]} ] /\
  (data <$> sent (snd (async_set_hvac_mode (answering example_settings) example_api DRY
                         (example_world (example_ac []))))) =
    [ {[ "operation_mode" := VStr "dry" ]} ].
Proof. split; vm_compute; reflexivity. Qed.

(** [HEAT_COOL] has no remo mode: the command raises before anything is sent. *)
Example set_hvac_mode_heat_cool (net : network) (api : NatureRemoAPI) (w : World) :
  async_set_hvac_mode net api HEAT_COOL w = (Raise KeyError, w).
Proof. reflexivity. Qed.

(** ** A command whose [POST] fails *)

Lemma api_post_fails (net : network) (api : NatureRemoAPI) (e : exn)
    (path : string) (d : payload) (log : wire) :
  post_fails net e -> fst (api_post net api path d log) = Raise e.
Proof.
  intros Hfail. unfold api_post, bind, send, raise, lift, response_json.
  destruct (Hfail {| method := POST; url := _host api +:+ path;
                     authorization := bearer api; data := d |} eq_refl)
    as [[t [-> ->]]|[-> [status ->]]]; reflexivity.
Qed.

Lemma executor_post_fails (net : network) (api : NatureRemoAPI) (e : exn)
    (d : payload) (w : World) :
  post_fails net e ->
  exists log, executor_post net api d w =
                (Raise e, {| self := self w; sent := log; written := written w |}).
Proof.
  intros Hfail. unfold executor_post, bind, get, on_wire.
  pose proof (api_post_fails net api e (aircon_settings_path w) d (sent w) Hfail) as H.
  destruct (api_post net api (aircon_settings_path w) d (sent w)) as [r log].
  cbn [fst] in H. subst r. now exists log.
Qed.

Lemma _post_fails (net : network) (api : NatureRemoAPI) (e : exn)
    (d : payload) (w : World) :
  post_fails net e -> failed_without_change e w (_post net api d w).
Proof.
  intros Hfail. destruct (executor_post_fails net api e d w Hfail) as [log Hpost].
  unfold _post, bind. rewrite Hpost. repeat split.
Qed.

Lemma is_integer_to_int (t : float) :
  PyFloat.is_integer t = true -> exists z, PyFloat.to_int t = Ok z.
Proof.
  unfold PyFloat.is_integer, PyFloat.to_int.
  destruct (Prim2SF t); try discriminate; eauto.
Qed.

(** C6. When the [POST] fails with [e], each of the four commands raises
    [e] to its caller and leaves the entity as it was; no state is written
    to Home Assistant. *)
Theorem post_failure_leaves_entity (net : network) (api : NatureRemoAPI)
    (e : exn) (w : World) :
  post_fails net e ->
  (forall t, failed_without_change e w (async_set_temperature net api (Some t) w)) /\
  (forall h mode, MODE_HA_TO_REMO h = Some mode -> reachable (self w) ->
     failed_without_change e w (async_set_hvac_mode net api h w)) /\
  (forall fan, failed_without_change e w (async_set_fan_mode net api fan w)) /\
  (forall swing, failed_without_change e w (async_set_swing_mode net api swing w)).
Proof.
  intros Hfail. split; [|split; [|split]].
  - intros t. unfold async_set_temperature, bind, lift, ret.
    destruct (PyFloat.is_integer t) eqn:Hint.
    + destruct (is_integer_to_int t Hint) as [z ->].
      destruct (executor_post_fails net api e {[ "temperature" := VStr (pretty z) ]} w Hfail)
        as [log ->].
      repeat split.
    + destruct (executor_post_fails net api e {[ "temperature" := VRepr t ]} w Hfail)
        as [log ->].
      repeat split.
  - intros h mode Hmode Hreach.
    destruct (reachable_last_target_temperature (self w) Hreach) as [Hkeys _].
    destruct (Hkeys h mode Hmode) as [last Hlast].
    unfold async_set_hvac_mode, bind, lift, getitem_mode, get, getitem.
    rewrite Hmode. cbn beta iota.
    destruct (String.eqb mode POWER_OFF); [now apply _post_fails|].
    rewrite Hlast. cbn beta iota zeta. now apply _post_fails.
  - intros fan. unfold async_set_fan_mode, bind.
    destruct (executor_post_fails net api e {[ "air_volume" := VStr fan ]} w Hfail)
      as [log ->].
    repeat split.
  - intros swing. now apply _post_fails.
Qed.

Lemma unreachable_network_fails : post_fails unreachable_network RequestsConnectionError.
Proof. intros r _. left. now exists NoConnection. Qed.

Lemma post_failure_leaves_entity_witness :
  failed_without_change RequestsConnectionError (example_world (example_ac []))
    (async_set_temperature unreachable_network example_api (Some 26%float)
       (example_world (example_ac []))) /\
  failed_without_change RequestsConnectionError (example_world (example_ac []))
    (async_set_hvac_mode unreachable_network example_api HEAT
       (example_world (example_ac []))) /\
  failed_without_change RequestsConnectionError (example_world (example_ac []))
    (async_set_fan_mode unreachable_network example_api "auto"
       (example_world (example_ac []))) /\
  failed_without_change RequestsConnectionError (example_world (example_ac []))
    (async_set_swing_mode unreachable_network example_api "1"
       (example_world (example_ac []))).
Proof.
  destruct (post_failure_leaves_entity unreachable_network example_api
              RequestsConnectionError (example_world (example_ac []))
              unreachable_network_fails) as (Htemp & Hmode & Hfan & Hswing).
  split; [apply Htemp|]. split; [|split; [apply Hfan|apply Hswing]].
  apply (Hmode HEAT "warm" eq_refl). apply example_ac_reachable.
Defined.

(** An answer that is not the settings object (the API's error object has
    no [mode]) raises [KeyError] in [_update] before anything is assigned. *)
Lemma error_object_leaves_entity (net : network) (api : NatureRemoAPI)
    (d : payload) (w : World) (status : Z) (o : settings) :
  net (aircon_post api w d) = Response status (Some (JObject o)) ->
  o !! "mode" = None ->
  failed_without_change KeyError w (_post net api d w).
Proof.
  intros Hnet Hmode.
  unfold _post, executor_post, bind, get, on_wire, api_post, send, lift, response_json.
  unfold aircon_post in Hnet. rewrite Hnet. cbn beta iota.
  unfold update_from, bind, lift, as_settings, on_self. cbn [self].
  rewrite _update_eq, Hmode. repeat split.
Qed.

(** ** The setup flow *)

Lemma by_id_raises (j : json) (e : exn) :
  by_id j = Raise e -> e = KeyError \/ e = TypeError.
Proof.
  destruct j as [o|l]; simpl.
  - destruct (decide (o = ∅)); [discriminate|]. intros [= <-]. now right.
  - assert (forall (acc : result (gmap string settings)),
              (forall e', acc = Raise e' -> e' = KeyError) ->
              fold_left (fun acc x =>
                 rbind acc (fun m => rbind (getitem x "id") (fun i => Ok (<[i := x]> m))))
                l acc = Raise e -> e = KeyError) as Hfold.
    { induction l as [|x l IH]; intros acc Hacc; simpl; [now apply Hacc|].
      apply IH. intros e'. destruct acc as [m|e0]; simpl.
      - unfold getitem. destruct (x !! "id"); simpl; congruence.
      - intros [= <-]. now apply Hacc. }
    intros H. left. apply (Hfold (Ok ∅)); [discriminate|assumption].
Qed.

Lemma authenticate_check_raises (net : network) (api : NatureRemoAPI)
    (log : wire) (e : exn) :
  fst (authenticate_check net api log) = Raise e ->
  e <> CannotConnect /\ e <> InvalidAuth.
Proof.
  unfold authenticate_check, bind, send, raise, lift, ret, response_json.
  destruct (net _) as [[]|status [j|]]; cbn [fst negb].
  - intros [= <-]. split; discriminate.
  - intros [= <-]. split; discriminate.
  - destruct (status =? 200); cbn [negb fst]; [|discriminate].
    destruct (by_id j) as [m|e'] eqn:Hid; cbn [fst]; [discriminate|].
    intros [= <-]. destruct (by_id_raises j e' Hid) as [->| ->]; split; discriminate.
  - destruct (status =? 200); cbn [negb fst]; [|discriminate].
    intros [= <-]. split; discriminate.
Qed.

Lemma validate_input_raises (net : network) (d : gmap string string)
    (log : wire) (e : exn) :
  fst (validate_input net d log) = Raise e -> e <> CannotConnect.
Proof.
  unfold validate_input, bind, lift, getitem, raise, ret.
  destruct (d !! CONF_HOST) as [host|]; cbn [fst]; [|intros [= <-]; discriminate].
  destruct (d !! CONF_ACCESS_TOKEN) as [token|]; cbn [fst];
    [|intros [= <-]; discriminate].
  pose proof (authenticate_check_raises net
                {| _access_token := token; _host := host |} log) as Hauth.
  destruct (authenticate_check net _ log) as [[[]|e'] log']; cbn [fst negb] in *.
  - discriminate.
  - intros [= <-]. discriminate.
  - intros [= <-]. now apply Hauth.
Qed.

(** Whatever the network does, the form never shows [cannot_connect]:
    nothing raises [CannotConnect]. *)
Lemma setup_never_reports_cannot_connect (net : network)
    (user_input : option (gmap string string)) (log : wire)
    (step_id : string) (errors : gmap string string) :
  fst (async_step_user net user_input log) = Ok (ShowForm step_id errors) ->
  errors !! "base" <> Some "cannot_connect".
Proof.
  unfold async_step_user. destruct user_input as [input|].
  - unfold try_except, bind, ret, lift, getitem.
    pose proof (validate_input_raises net input log) as Hraise.
    destruct (validate_input net input log) as [[info|e] log']; cbn [fst] in *.
    + destruct (info !! "title"); cbn [fst]; discriminate.
    + assert (catches CannotConnect e = false) as ->.
      { specialize (Hraise e eq_refl). now destruct e. }
      destruct (catches InvalidAuth e); cbn [fst]; intros [= <- <-];
        rewrite lookup_singleton_eq; discriminate.
  - cbn. intros [= <- <-]. rewrite lookup_empty. discriminate.
Qed.

(** A response other than 200 on the appliances listing is an
    authentication failure: the form shows [invalid_auth]. *)
Lemma setup_rejects_non_200 (net : network) (input : gmap string string)
    (host token : string) (status : Z) (body : option json) (log : wire) :
  input !! CONF_HOST = Some host ->
  input !! CONF_ACCESS_TOKEN = Some token ->
  net (auth_check_request host token) = Response status body ->
  status <> 200 ->
  async_step_user net (Some input) log =
    (Ok (ShowForm "user" {[ "base" := "invalid_auth" ]}),
     (log ++ [auth_check_request host token])%list).
Proof.
  intros Hhost Htoken Hnet Hstatus.
  unfold async_step_user, try_except, validate_input, bind, lift, getitem, ret, raise.
  rewrite Hhost, Htoken. cbn beta iota.
  unfold authenticate_check, bind, send, ret, bearer. cbn [_host _access_token].
  unfold auth_check_request in Hnet. rewrite Hnet.
  destruct (Z.eqb_spec status 200); [contradiction|]. reflexivity.
Qed.

(** A request that fails in transit is reported as [unknown]. *)
Lemma setup_transport_failure_unknown (net : network) (input : gmap string string)
    (host token : string) (t : transport_error) (log : wire) :
  input !! CONF_HOST = Some host ->
  input !! CONF_ACCESS_TOKEN = Some token ->
  net (auth_check_request host token) = Failed t ->
  async_step_user net (Some input) log =
    (Ok (ShowForm "user" {[ "base" := "unknown" ]}),
     (log ++ [auth_check_request host token])%list).
Proof.
  intros Hhost Htoken Hnet.
  unfold async_step_user, try_except, validate_input, bind, lift, getitem, ret, raise.
  rewrite Hhost, Htoken. cbn beta iota.
  unfold authenticate_check, bind, send, raise, bearer. cbn [_host _access_token].
  unfold auth_check_request in Hnet. rewrite Hnet. now destruct t.
Qed.

(** C7, on the code: with the API host unreachable, the setup form shows
    [unknown]; the handler for [CannotConnect] is never reached. *)
Theorem setup_unreachable_host_reported_unknown :
  fst (async_step_user unreachable_network (Some example_user_input) []) =
    Ok (ShowForm "user" {[ "base" := "unknown" ]}).
Proof.
  rewrite (setup_transport_failure_unknown unreachable_network example_user_input
             "https://api.nature.global/1" "token" NoConnection []);
    [reflexivity| | |reflexivity]; vm_compute; reflexivity.
Qed.

(** ** The refresh coordinator *)

Module CoordinatorFacts.
Import Coordinator.
Section CoordinatorFacts.

Context {State : Type}.
Implicit Types (co : t State) (ws : list waiter) (evs : list (event State)).

Lemma callers_app ws ws' : callers (ws ++ ws') = (callers ws ++ callers ws')%list.
Proof.
  induction ws as [|[c|] ws IH]; simpl; [reflexivity| |assumption].
  now rewrite IH.
Qed.

Lemma timer_waits_app ws ws' :
  timer_waits (ws ++ ws') = timer_waits ws || timer_waits ws'.
Proof. apply existsb_app. Qed.

(** While the fetch is in flight, an event that does not complete it only
    lets waiters join: nothing is fetched, returned, cached, notified or
    logged. *)
Lemma step_while_in_flight co ws (ev : event State) :
  in_flight co = Some ws ->
  keeps_flying ev = true ->
  exists ws',
    in_flight (step co ev) = Some ws' /\
    callers ws' = (callers ws ++ requesters [ev])%list /\
    (timer_waits ws = true -> timer_waits ws' = true) /\
    fetches (step co ev) = fetches co /\
    returned (step co ev) = returned co /\
    cache (step co ev) = cache co /\
    notifications (step co ev) = notifications co /\
    logged (step co ev) = logged co /\
    running (step co ev) = running co.
Proof.
  intros Hfly Hev. destruct ev as [c| |r|l|l]; simpl in *; try discriminate.
  - unfold refresh. rewrite Hfly. simpl. eexists. split; [reflexivity|].
    rewrite callers_app, timer_waits_app. simpl.
    repeat split; auto. intros ->. reflexivity.
  - destruct (running co) eqn:Hrun.
    + unfold refresh. rewrite Hfly. simpl. eexists. split; [reflexivity|].
      rewrite callers_app, timer_waits_app. simpl.
      repeat split; auto using orb_true_r.
    + exists ws. rewrite app_nil_r. repeat split; auto.
  - exists ws. rewrite app_nil_r. repeat split; auto.
  - exists ws. rewrite app_nil_r. repeat split; auto.
Qed.

Lemma requesters_cons (ev : event State) evs :
  requesters (ev :: evs) = (requesters [ev] ++ requesters evs)%list.
Proof. now destruct ev. Qed.

Lemma steps_while_in_flight evs : forall co ws,
  in_flight co = Some ws ->
  forallb keeps_flying evs = true ->
  exists ws',
    in_flight (steps evs co) = Some ws' /\
    callers ws' = (callers ws ++ requesters evs)%list /\
    (timer_waits ws = true -> timer_waits ws' = true) /\
    fetches (steps evs co) = fetches co /\
    returned (steps evs co) = returned co /\
    cache (steps evs co) = cache co /\
    notifications (steps evs co) = notifications co /\
    logged (steps evs co) = logged co /\
    running (steps evs co) = running co.
Proof.
  induction evs as [|ev evs IH]; intros co ws Hfly Hevs.
  - exists ws. simpl. rewrite app_nil_r. repeat split; auto.
  - simpl in Hevs. apply andb_prop in Hevs as [Hev Hevs].
    destruct (step_while_in_flight co ws ev Hfly Hev)
      as (ws1 & Hfly1 & Hc1 & Ht1 & Hf1 & Hr1 & Hca1 & Hn1 & Hl1 & Hru1).
    destruct (IH (step co ev) ws1 Hfly1 Hevs)
      as (ws2 & Hfly2 & Hc2 & Ht2 & Hf2 & Hr2 & Hca2 & Hn2 & Hl2 & Hru2).
    exists ws2. rewrite (requesters_cons ev evs), app_assoc, <- Hc1, <- Hc2.
    unfold steps in *. cbn [fold_left].
    rewrite Hfly2, Hf2, Hf1, Hr2, Hr1, Hca2, Hca1, Hn2, Hn1, Hl2, Hl1, Hru2, Hru1.
    repeat split; auto.
Qed.

(** C1. Against the coordinator of the specification: while a refresh is
    in flight, any requests (and timer ticks) start no further fetch, and
    when the fetch completes every caller that was waiting or asked
    meanwhile is given the same outcome: the new State, or the same
    failure. *)
Theorem single_flight co ws evs (r : result State) :
  in_flight co = Some ws ->
  forallb keeps_flying evs = true ->
  let co' := step (steps evs co) (FetchDone r) in
  fetches co' = fetches co /\
  in_flight co' = None /\
  returned co' =
    (returned co ++ map (fun c => (c, outcome_of r))
                        (callers ws ++ requesters evs))%list.
Proof.
  intros Hfly Hevs.
  destruct (steps_while_in_flight evs co ws Hfly Hevs)
    as (ws' & Hfly' & Hc & _ & Hf & Hr & _).
  cbv zeta. simpl. unfold fetch_done. rewrite Hfly'.
  destruct r as [s|e]; simpl; rewrite Hf, Hr, Hc; auto.
Qed.

(** A request on an idle coordinator starts the one fetch. *)
Lemma request_when_idle co (c : nat) :
  in_flight co = None ->
  in_flight (step co (RequestRefresh c)) = Some [Caller c] /\
  fetches (step co (RequestRefresh c)) = S (fetches co) /\
  returned (step co (RequestRefresh c)) = returned co.
Proof. intros Hidle. simpl. unfold refresh. now rewrite Hidle. Qed.

(** A tick on an idle, running coordinator starts a fetch for the timer. *)
Lemma tick_when_idle co :
  running co = true ->
  in_flight co = None ->
  in_flight (step co Tick) = Some [Timer] /\
  fetches (step co Tick) = S (fetches co) /\
  returned (step co Tick) = returned co /\
  cache (step co Tick) = cache co /\
  notifications (step co Tick) = notifications co /\
  logged (step co Tick) = logged co /\
  running (step co Tick) = true.
Proof.
  intros Hrun Hidle. simpl. rewrite Hrun. unfold refresh. rewrite Hidle.
  simpl. auto 10.
Qed.

(** The fetch in flight fails. *)
Lemma fetch_failed co ws (e : exn) :
  in_flight co = Some ws ->
  let co' := step co (FetchDone (Raise e)) in
  cache co' = cache co /\
  notifications co' = notifications co /\
  returned co' = (returned co ++ map (fun c => (c, RefreshError e)) (callers ws))%list /\
  logged co' = (if timer_waits ws then logged co ++ [e] else logged co)%list /\
  running co' = running co /\
  in_flight co' = None /\
  fetches co' = fetches co.
Proof. intros Hfly. simpl. unfold fetch_done. rewrite Hfly. simpl. auto 10. Qed.

(** C8. Against the coordinator of the specification: a scheduled refresh
    that fails leaves the cached State as it was, notifies no subscriber
    and returns nothing to any caller (unless one joined that refresh),
    logs the failure, and leaves the scheduler running, so that the next
    tick starts a new fetch. *)
Theorem failed_scheduled_refresh co evs (e : exn) :
  running co = true ->
  in_flight co = None ->
  forallb keeps_flying evs = true ->
  let co' := step (steps evs (step co Tick)) (FetchDone (Raise e)) in
  cache co' = cache co /\
  notifications co' = notifications co /\
  (requesters evs = [] -> returned co' = returned co) /\
  logged co' = (logged co ++ [e])%list /\
  running co' = true /\
  in_flight co' = None /\
  fetches co' = S (fetches co) /\
  fetches (step co' Tick) = S (fetches co') /\
  in_flight (step co' Tick) = Some [Timer].
Proof.
  intros Hrun Hidle Hevs.
  destruct (tick_when_idle co Hrun Hidle)
    as (Hfly & Hf0 & Hr0 & Hc0 & Hn0 & Hl0 & Hru0).
  destruct (steps_while_in_flight evs (step co Tick) [Timer] Hfly Hevs)
    as (ws' & Hfly' & Hc & Ht & Hf & Hr & Hca & Hn & Hl & Hru).
  destruct (fetch_failed (steps evs (step co Tick)) ws' e Hfly')
    as (Hca' & Hn' & Hr' & Hl' & Hru' & Hidle' & Hf').
  cbv zeta in *. rewrite (Ht eq_refl) in Hl'.
  assert (running (step (steps evs (step co Tick)) (FetchDone (Raise e))) = true)
    as Hrun' by congruence.
  destruct (tick_when_idle _ Hrun' Hidle') as (Hfly2 & Hf2 & _).
  split; [congruence|]. split; [congruence|].
  split.
  { intros Hnone. rewrite Hr', Hc, Hnone, Hr, Hr0. simpl. apply app_nil_r. }
  split; [congruence|]. split; [assumption|]. split; [assumption|].
  split; [congruence|]. split; assumption.
Qed.

End CoordinatorFacts.

Lemma single_flight_witness :
  let co := step (started 0%nat [7%nat]) (RequestRefresh 1) in
  let co' := step (steps [RequestRefresh 2; Tick; RequestRefresh 3] co)
               (FetchDone (Ok 5%nat)) in
  fetches co' = 2%nat /\
  in_flight co' = None /\
  returned co' = [(1%nat, Refreshed 5%nat); (2%nat, Refreshed 5%nat);
                  (3%nat, Refreshed 5%nat)].
Proof.
  apply (single_flight (step (started 0%nat [7%nat]) (RequestRefresh 1))
           [Caller 1] [RequestRefresh 2; Tick; RequestRefresh 3] (Ok 5%nat));
    reflexivity.
Defined.

Lemma failed_scheduled_refresh_witness :
  let co' := step (steps [] (step (started 0%nat [7%nat]) Tick))
               (FetchDone (Raise RequestsTimeout)) in
  cache co' = Some 0%nat /\
  notifications co' = [] /\
  (@requesters nat [] = [] -> returned co' = []) /\
  logged co' = [RequestsTimeout] /\
  running co' = true /\
  in_flight co' = None /\
  fetches co' = 2%nat /\
  fetches (step co' Tick) = 3%nat /\
  in_flight (step co' Tick) = Some [Timer].
Proof.
  apply (failed_scheduled_refresh (started 0%nat [7%nat]) [] RequestsTimeout);
    reflexivity.
Defined.

End CoordinatorFacts.
